(** * data_util.py: example construction for the brain-to-text pipeline

    A shallow embedding of [src/data_util.py] and the properties of its
    transcript parser, word-pair generator, deduplicator, vocabulary filter,
    window calculator, dataset wrapper and batch collator.

    Conventions of the embedding:
    - Python [int] is [Z]; Python [str] is [string]; a Python list is [list].
    - a Python tuple [(tokens, is_target_speaker, onset, offset)] is the
      Rocq tuple [(tokens, speaker, onset, offset)], read with [tok], [spk],
      [onset], [offset];
    - a call that can raise returns [result A]: [Ok a] or [Raise e];
    - a [dict] with string keys is a [gmap string _]. *)

From Stdlib Require Import ZArith Ascii String List Lia Bool.
From stdpp Require Import base gmap strings list sorting.

Open Scope string_scope.
Open Scope list_scope.
Open Scope Z_scope.

(** ** Exceptions and fallible computations *)

Inductive exn :=
| IndexError | ValueError | KeyError | TypeError
| ZeroDivisionError | AssertionError | RuntimeError.

Inductive result (A : Type) :=
| Ok (a : A)
| Raise (e : exn).
Arguments Ok {A} a.
Arguments Raise {A} e.

(** Sequencing: the first exception raised ends the computation. *)
#[global] Instance result_bind : MBind result := fun A B k r =>
  match r with
  | Ok a => k a
  | Raise e => Raise e
  end.
#[global] Instance result_ret : MRet result := @Ok.

(** ** Python sequence indexing *)

(** [l[i]] for a Python list: a negative index counts from the end. *)
Definition py_index {A} (l : list A) (i : Z) : result A :=
  let n := Z.of_nat (length l) in
  let j := if i <? 0 then i + n else i in
  if (j <? 0) || (n <=? j) then Raise IndexError
  else match l !! Z.to_nat j with
       | Some a => Ok a
       | None => Raise IndexError
       end.

(** [l[0:-k]]: everything but the last [k] items (empty when there are
    fewer than [k]). *)
Definition py_drop_last {A} (k : nat) (l : list A) : list A :=
  firstn (length l - k) l.

(** ** Python string methods used by the parser (ASCII text) *)

(** The string methods below are those of Python on ASCII text, the text
    that [str_is_ascii] recognises; outside it Python also lowers
    non-ASCII capitals and strips non-ASCII whitespace. *)
Definition char_is_ascii (c : ascii) : bool := Nat.ltb (nat_of_ascii c) 128.

Definition str_is_ascii (s : string) : bool :=
  forallb char_is_ascii (list_ascii_of_string s).

Definition char_lower (c : ascii) : ascii :=
  let n := nat_of_ascii c in
  if (Nat.leb 65 n && Nat.leb n 90)%bool then ascii_of_nat (n + 32) else c.

Fixpoint str_lower (s : string) : string :=
  match s with
  | EmptyString => EmptyString
  | String c s' => String (char_lower c) (str_lower s')
  end.

(** Whitespace for [str.strip()]: tab, newline, vertical tab, form feed,
    carriage return, the separators 0x1c..0x1f and the space. *)
Definition char_isspace (c : ascii) : bool :=
  let n := nat_of_ascii c in
  ((Nat.leb 9 n && Nat.leb n 13) || (Nat.leb 28 n && Nat.leb n 32))%bool.

Fixpoint str_lstrip (s : string) : string :=
  match s with
  | EmptyString => EmptyString
  | String c s' => if char_isspace c then str_lstrip s' else s
  end.

Fixpoint str_rev_onto (s acc : string) : string :=
  match s with
  | EmptyString => acc
  | String c s' => str_rev_onto s' (String c acc)
  end.

Definition str_rev (s : string) : string := str_rev_onto s EmptyString.

Definition str_rstrip (s : string) : string :=
  str_rev (str_lstrip (str_rev s)).

Definition str_strip (s : string) : string := str_rstrip (str_lstrip s).

(** [s.replace(c, '')] for a one-character [c]. *)
Fixpoint str_remove (c : ascii) (s : string) : string :=
  match s with
  | EmptyString => EmptyString
  | String d s' =>
      if Ascii.eqb c d then str_remove c s' else String d (str_remove c s')
  end.

Definition dquote : ascii := ascii_of_nat 34.

Fixpoint str_startswith (p s : string) : bool :=
  match p, s with
  | EmptyString, _ => true
  | String a p', String b s' => (Ascii.eqb a b && str_startswith p' s')%bool
  | String _ _, EmptyString => false
  end.

(** The scan of [s.split(sep)] for a non-empty [sep]: [cur] is the field
    being read (reversed), [skip] the number of characters of a separator
    just matched that are still to be passed over. *)
Fixpoint split_scan (sep : string) (skip : nat) (cur s : string) : list string :=
  match s with
  | EmptyString => [str_rev cur]
  | String c s' =>
      match skip with
      | S k => split_scan sep k cur s'
      | O =>
          if str_startswith sep s
          then str_rev cur :: split_scan sep (String.length sep - 1) EmptyString s'
          else split_scan sep 0 (String c cur) s'
      end
  end.

(** [s.split(sep)]: an empty separator raises [ValueError]. *)
Definition str_split (sep s : string) : result (list string) :=
  match sep with
  | EmptyString => Raise ValueError
  | _ => Ok (split_scan sep 0 EmptyString s)
  end.

(** [sep.join(l)] *)
Fixpoint str_join (sep : string) (l : list string) : string :=
  match l with
  | [] => EmptyString
  | [x] => x
  | x :: rest => x +:+ sep +:+ str_join sep rest
  end.

(** [s in ex_words] *)
Definition str_mem (s : string) (l : list string) : bool :=
  existsb (String.eqb s) l.

(** ** Vocabulary, grams *)

(** The tokenizer object: [EncodeAsIds(text)], [vocabulary[piece]] and
    [len(vocabulary)]. *)
Record Vocabulary := {
  EncodeAsIds : string -> list Z;
  PieceToId : string -> Z;
  vocab_len : nat
}.

(** [(tokens, is_target_speaker, onset, offset)] *)
Definition gram (T : Type) : Type := (list T * bool * Z * Z)%type.

Definition tok {T} (g : gram T) : list T := g.1.1.1.
Definition spk {T} (g : gram T) : bool := g.1.1.2.
Definition onset {T} (g : gram T) : Z := g.1.2.
Definition offset {T} (g : gram T) : Z := g.2.

(** ** return_examples *)

Section ReturnExamples.
(** The tokenizer, and [int(float(s))]: both are library code. *)
Variable vocabulary : Vocabulary.
Variable int_float : string -> result Z.

(** [y.lower().strip().replace(DQUOTE, '')], DQUOTE the one-character
    string holding a double quote. *)
Definition clean_field (y : string) : string :=
  str_remove dquote (str_strip (str_lower y)).

(** The text of a line: the cleaned fields [x[0:-4]] that are not
    excluded, joined by single spaces. *)
Definition line_text (ex_words : list string) (x : list string) : string :=
  str_join " "
    (List.filter (fun z => negb (str_mem z ex_words))
       (List.map clean_field (py_drop_last 4 x))).

(** The first [map]: the tuple built from the split line. *)
Definition raw_example (ex_words : list string) (x : list string)
  : result (string * bool * string * string) :=
  let text := line_text ex_words x in
  last_f ← py_index x (-1);
  on ← py_index x (-4);
  off ← py_index x (-3);
  Ok (text, String.eqb (str_strip last_f) "Speaker1", on, off).

(** The second [map]: tokens and integer times. *)
Definition convert_example (r : string * bool * string * string)
  : result (gram Z) :=
  let '(text, speaker, on, off) := r in
  let tokens := EncodeAsIds vocabulary text in
  on' ← int_float on;
  off' ← int_float off;
  Ok (tokens, speaker, on', off').

(** One line through the lazy chain split, map, filter, map: [None] when
    the filter drops it. *)
Definition parse_line (delim : string) (ex_words : list string)
    (line : string) : result (option (gram Z)) :=
  x ← str_split delim line;
  r ← raw_example ex_words x;
  if Nat.ltb 0 (String.length r.1.1.1)
  then (g ← convert_example r; Ok (Some g))
  else Ok None.

(** [list(examples)]: lines are pulled through the chain one at a time,
    so the first line that raises ends the call. [lines] is what
    iterating the open file yields (each line with its newline). *)
Fixpoint return_examples (lines : list string) (delim : string)
    (ex_words : list string) : result (list (gram Z)) :=
  match lines with
  | [] => Ok []
  | line :: rest =>
      o ← parse_line delim ex_words line;
      tl ← return_examples rest delim ex_words;
      Ok (match o with Some g => g :: tl | None => tl end)
  end.
End ReturnExamples.

(** ** generate_wordpairs *)

(** The body of the loop over [zip(examples, examples[1:])]: the three
    [if]s in turn, each appending to [my_grams]. *)
Definition wordpair_step (my_grams : list (gram Z)) (p : gram Z * gram Z)
  : list (gram Z) :=
  let '(first, second) := p in
  let len1 := length (tok first) in
  let len2 := length (tok second) in
  let g1 :=
    if spk first && Nat.eqb len1 2 then my_grams ++ [first] else my_grams in
  let g2 :=
    if spk second && Nat.eqb len2 2 then g1 ++ [second] else g1 in
  if (spk first && spk second) && (Nat.eqb len1 1 && Nat.eqb len2 1)
     && (onset first <? onset second)
  then g2 ++ [(tok first ++ tok second, true, onset first, offset second)]
  else g2.

Definition generate_wordpairs (examples : list (gram Z)) : list (gram Z) :=
  fold_left wordpair_step (combine examples (List.tl examples)) [].

(** ** remove_duplicates *)

(** A value of the token columns of the data frame: a Python [int], or a
    [float64] that is either integral (token ids cast to float, exact below
    2^53) or NaN. *)
Inductive cell :=
| CInt (z : Z)
| CFloat (z : Z)
| CNaN.

(** The number a cell holds in its column ([None] for NaN); a row too short
    to fill the column holds NaN there. *)
Definition cell_value (c : cell) : option Z :=
  match c with
  | CInt z | CFloat z => Some z
  | CNaN => None
  end.

Definition slot (o : option cell) : option Z := o ≫= cell_value.

(** A column is inferred [int64] when every row gives it a Python [int]. *)
Definition is_int64 (o : option cell) : bool :=
  match o with
  | Some (CInt _) => true
  | _ => false
  end.

(** [.values.tolist()]: a Python [int] when both columns are [int64], a
    [float] otherwise. *)
Definition out_cell (all_int : bool) (v : option Z) : cell :=
  match v with
  | Some z => if all_int then CInt z else CFloat z
  | None => CNaN
  end.

(** A row of the frame once column 0 is replaced by [fw] and [sw]:
    [(fw, sw, column 1, column 2, column 3)]. *)
Definition row : Type := (option Z * option Z * bool * Z * Z)%type.

(** [DataFrame.drop_duplicates()]: the first of equal rows is kept, in
    order; NaN counts as equal to NaN. [seen] holds the rows met so far. *)
Fixpoint drop_duplicates_from (seen : list row) (l : list row) : list row :=
  match l with
  | [] => []
  | r :: rest =>
      if bool_decide (r ∈ seen) then drop_duplicates_from seen rest
      else r :: drop_duplicates_from (r :: seen) rest
  end.

Definition drop_duplicates (l : list row) : list row :=
  drop_duplicates_from [] l.

Definition row_of_gram (g : gram cell) : row :=
  (slot (tok g !! 0%nat), slot (tok g !! 1%nat), spk g, onset g, offset g).

Definition gram_of_row (all_int : bool) (r : row) : gram cell :=
  let '(fw, sw, c1, c2, c3) := r in
  ([out_cell all_int fw; out_cell all_int sw], c1, c2, c3).

(** An item of the returned list: a numpy record with the four fields of
    an example. It is not a tuple; [record_tuple] is [tuple(r)], its fields
    read back as a tuple. *)
Inductive np_record :=
| NpRecord (fields : gram cell).

Definition record_tuple (r : np_record) : gram cell :=
  match r with
  | NpRecord fields => fields
  end.

(** [remove_duplicates] on a list of tuples:
    - [df[0]] on the frame of an empty list raises [KeyError];
    - the frame of the token lists has as many columns as the longest list,
      and assigning it to the two columns [fw], [sw] raises [ValueError]
      unless that number is 2;
    - the rows left are returned as numpy records. *)
Definition remove_duplicates (grams : list (gram cell))
  : result (list np_record) :=
  match grams with
  | [] => Raise KeyError
  | _ =>
      let ncols := max_list (List.map (fun g => length (tok g)) grams) in
      if negb (Nat.eqb ncols 2) then Raise ValueError
      else
        let all_int :=
          forallb (fun g => is_int64 (tok g !! 0%nat)
                            && is_int64 (tok g !! 1%nat)) grams in
        Ok (List.map NpRecord
              (List.map (gram_of_row all_int)
                 (drop_duplicates (List.map row_of_gram grams))))
  end.

(** [remove_duplicates] on a list of numpy records, such as the one it
    returns: pandas does not take a record for a row of values, so the
    frame has the single column 0 holding the records; [df[0].tolist()] is
    the list of records again, its frame has one column, and assigning it
    to the two columns [fw], [sw] raises [ValueError]. *)
Definition remove_duplicates_records (recs : list np_record)
  : result (list np_record) :=
  match recs with
  | [] => Raise KeyError
  | _ => Raise ValueError
  end.

(** The grams of the generator as the deduplicator receives them. *)
Definition int_gram (g : gram Z) : gram cell :=
  (List.map CInt (tok g), spk g, onset g, offset g).

(** ** remove_oovs *)

(** Equality of examples, for counting their occurrences. *)
Definition gram_eq_dec (x y : gram Z) : {x = y} + {x <> y} := decide (x = y).

Definition remove_oovs (grams : list (gram Z)) (vocabulary : Vocabulary)
    (data_tag : string) : list (gram Z) :=
  let unk := PieceToId vocabulary "<unk>" in
  if String.eqb data_tag "train"
  then List.filter (fun x => bool_decide (unk ∉ tok x)) grams
  else List.filter (fun x => bool_decide (tok x ≠ [unk; unk])) grams.

(** ** test_for_bad_window, calculate_windows_params *)

(** [shape] is the shape [(time steps, electrodes)] of the signal array;
    [shape[0]] its first component. *)
Definition test_for_bad_window (start stop : Z) (shape : Z * Z) (window : Z)
  : bool :=
  (start <? 0) || (shape.1 <? start) || (stop <? 0) || (shape.1 <? stop)
  || (stop - start <? window) || (stop - start <? 0).

(** A value of the configuration dictionary: an integer or a string.
    Other values (floats, booleans) are outside the model. *)
Inductive pyval :=
| PInt (z : Z)
| PStr (s : string).

(** [d[key]] *)
Definition dict_get (d : gmap string pyval) (key : string) : result pyval :=
  match d !! key with
  | Some v => Ok v
  | None => Raise KeyError
  end.

(** An operand of integer arithmetic: a string there raises [TypeError]. *)
Definition as_int (v : pyval) : result Z :=
  match v with
  | PInt z => Ok z
  | PStr _ => Raise TypeError
  end.

(** [math.ceil(a / b)] on integers: the least integer not below the
    quotient (the float quotient of integers below 2^53 in absolute value
    rounds to no other integer). *)
Definition ceil_div (a b : Z) : result Z :=
  if b =? 0 then Raise ZeroDivisionError else Ok (- ((- a) `div` b)).

Definition calculate_windows_params {T} (g : gram T)
    (param_dict : gmap string pyval) : result (Z * Z * Z * Z) :=
  let seq_length := offset g - onset g in
  start_offset ← dict_get param_dict "start_offset" ≫= as_int;
  let begin_window := onset g + start_offset in
  end_offset ← dict_get param_dict "end_offset" ≫= as_int;
  let end_window := offset g + end_offset in
  bin_fs ← dict_get param_dict "bin_fs" ≫= as_int;
  bin_size ← ceil_div (end_window - begin_window) bin_fs;
  Ok (seq_length, begin_window, end_window, bin_size).

(** ** Brain2enDataset *)

(** An entry of [indices]: [(i, len(signals[i]), len(labels[i]))]. *)
Definition index_entry : Type := (nat * nat * nat)%type.

(** The sort key [(x[1], x[2], x[0])], compared as Python compares
    tuples. *)
Definition key_le (a b : index_entry) : Prop :=
  (a.1.2 < b.1.2 \/
   (a.1.2 = b.1.2 /\ (a.2 < b.2 \/ (a.2 = b.2 /\ a.1.1 <= b.1.1))))%nat.

#[global] Instance key_le_dec : RelDecision key_le.
Proof. intros a b. unfold key_le. apply _. Defined.

(** [l[i]] for an index known to be a natural number. *)
Definition list_get {A} (l : list A) (i : nat) : result A :=
  match l !! i with
  | Some a => Ok a
  | None => Raise IndexError
  end.

(** [Counter.update(lab)]: one more occurrence of each token of [lab]. *)
Definition counter_update (freq : gmap Z nat) (lab : list Z) : gmap Z nat :=
  fold_left
    (fun m t => partial_alter (fun o => Some (S (default 0%nat o))) t m)
    lab freq.

Section Dataset.
(** A numpy array of a signal segment with its [len], and its conversion
    [torch.from_numpy(_).float()] to a tensor. *)
Variables Signal Tensor : Type.
Variable np_len : Signal -> nat.
Variable from_numpy_float : Signal -> Tensor.

(** The attributes of the dataset, and the counter [c] that [__init__]
    prints. *)
Record Brain2enDataset := {
  examples : list (Tensor * list Z);
  max_seq_len : nat;
  max_sent_len : nat;
  train_freq : gmap Z nat;
  skipped : nat
}.

Definition empty_dataset : Brain2enDataset :=
  {| examples := []; max_seq_len := 0; max_sent_len := 0;
     train_freq := ∅; skipped := 0 |}.

(** [indices]; the two lists have the same length when this is built. *)
Definition make_indices (signals : list Signal) (labels : list (list Z))
  : list index_entry :=
  imap (fun i sl => (i, np_len sl.1, length sl.2)) (zip signals labels).

(** The test that skips an entry. *)
Definition out_of_bounds (i : index_entry) : bool :=
  (Nat.ltb 384 i.1.2 || Nat.ltb i.2 4 || Nat.ltb 128 i.2)%bool.

(** The body of the loop over the sorted [indices]. The conversions to
    tensors are taken to succeed, as they do for token ids that fit in
    64-bit integers. *)
Definition dataset_step (signals : list Signal) (labels : list (list Z))
    (ds : Brain2enDataset) (i : index_entry) : result Brain2enDataset :=
  if out_of_bounds i
  then Ok {| examples := examples ds; max_seq_len := max_seq_len ds;
             max_sent_len := max_sent_len ds; train_freq := train_freq ds;
             skipped := S (skipped ds) |}
  else
    lab ← list_get labels i.1.1;
    sig ← list_get signals i.1.1;
    Ok {| examples := examples ds ++ [(from_numpy_float sig, lab)];
          max_seq_len := Nat.max (max_seq_len ds) i.1.2;
          max_sent_len := Nat.max (max_sent_len ds) (length lab);
          train_freq := counter_update (train_freq ds) lab;
          skipped := skipped ds |}.

Fixpoint dataset_loop (signals : list Signal) (labels : list (list Z))
    (ds : Brain2enDataset) (indices : list index_entry)
  : result Brain2enDataset :=
  match indices with
  | [] => Ok ds
  | i :: rest =>
      ds' ← dataset_step signals labels ds i;
      dataset_loop signals labels ds' rest
  end.

(** [Brain2enDataset(signals, labels)]. The keys are pairwise distinct
    (the index is their last component), so every sorting algorithm
    returns the same list as Python's [sort]. *)
Definition Brain2enDataset_init (signals : list Signal)
    (labels : list (list Z)) : result Brain2enDataset :=
  if negb (Nat.eqb (length signals) (length labels))
  then Raise AssertionError
  else
    let indices := merge_sort key_le (make_indices signals labels) in
    dataset_loop signals labels empty_dataset indices.

(** [len(dataset)] *)
Definition dataset_len (ds : Brain2enDataset) : nat := length (examples ds).

(** [dataset[idx]] *)
Definition dataset_getitem (ds : Brain2enDataset) (idx : Z)
  : result (Tensor * list Z) :=
  py_index (examples ds) idx.

(** [e] is the entry of [indices] for its index. *)
Definition well_indexed (signals : list Signal) (labels : list (list Z))
    (e : index_entry) : Prop :=
  exists s l, signals !! e.1.1 = Some s /\ labels !! e.1.1 = Some l
              /\ e.1.2 = np_len s /\ e.2 = length l.

(** [ex] is the dataset example made from the pair at the index of [e]. *)
Definition example_of (signals : list Signal) (labels : list (list Z))
    (e : index_entry) (ex : Tensor * list Z) : Prop :=
  exists s l, signals !! e.1.1 = Some s /\ labels !! e.1.1 = Some l
              /\ ex = (from_numpy_float s, l).
End Dataset.

Arguments examples {Tensor} _.
Arguments max_seq_len {Tensor} _.
Arguments max_sent_len {Tensor} _.
Arguments train_freq {Tensor} _.
Arguments skipped {Tensor} _.
Arguments dataset_len {Tensor} _.
Arguments dataset_getitem {Tensor} _ _.
Arguments Brain2enDataset_init {Signal Tensor} _ _ _ _.

(** ** MyCollator *)

Section Collator.
(** Signal tensors and their padded batch are the tensor library's, as is
    [pad_sequence] on them; [F] is the type of float entries, of which
    the collator writes [0.], [1.] and [-inf]. *)
Variables Tensor SrcBatch F : Type.
Variables f0 f1 neg_inf : F.
Variable pad_sequence_src : list Tensor -> result SrcBatch.

Record MyCollator := {
  CONFIG : gmap string pyval;
  vocabulary : Vocabulary;
  pad_token : pyval
}.

Definition MyCollator_init (config : gmap string pyval) (v : Vocabulary)
  : result MyCollator :=
  p ← dict_get config "pad_token";
  Ok {| CONFIG := config; vocabulary := v; pad_token := p |}.

(** [self.vocabulary[self.pad_token]] *)
Definition pad_id (self : MyCollator) : result Z :=
  match pad_token self with
  | PStr s => Ok (PieceToId (vocabulary self) s)
  | PInt _ => Raise TypeError
  end.

(** [pad_sequence(seqs, batch_first=True, padding_value=v)] on label
    tensors: an empty list of sequences is refused. *)
Definition pad_sequence_labels (seqs : list (list Z)) (v : Z)
  : result (list (list Z)) :=
  match seqs with
  | [] => Raise RuntimeError
  | _ =>
      let L := max_list (List.map (fun s => length s) seqs) in
      Ok (List.map (fun s => s ++ replicate (L - length s)%nat v) seqs)
  end.

(** [torch.zeros(B, L, V).scatter_(2, labels.unsqueeze(-1), 1)]: an index
    outside [0, V) is refused. *)
Definition one_hot_row (V : nat) (t : Z) : list F :=
  List.map (fun v => if Z.of_nat v =? t then f1 else f0) (seq 0 V).

Definition one_hot (V : nat) (labels : list (list Z))
  : result (list (list (list F))) :=
  if forallb (forallb (fun t => (0 <=? t) && (t <? Z.of_nat V))) labels
  then Ok (List.map (List.map (one_hot_row V)) labels)
  else Raise RuntimeError.

(** [labels.size(1)] of a padded batch *)
Definition size1 (labels : list (list Z)) : nat :=
  match labels with
  | [] => 0
  | r :: _ => length r
  end.

(** [masks]: the causal mask [1 x L x L] and the padding mask. *)
Definition masks (self : MyCollator) (labels : list (list Z))
  : result (list (list (list F)) * list (list bool)) :=
  let L := size1 labels in
  let pos_mask :=
    [List.map (fun i =>
       List.map (fun j => if Nat.leb j i then f0 else neg_inf) (seq 0 L))
       (seq 0 L)] in
  p ← pad_id self;
  Ok (pos_mask, List.map (List.map (fun t => t =? p)) labels).

(** [__call__] *)
Definition collate (self : MyCollator) (batch : list (Tensor * list Z))
  : result (SrcBatch * list (list (list F)) * list (list Z)
            * list (list (list F)) * list (list bool)) :=
  src ← pad_sequence_src (List.map fst batch);
  p ← pad_id self;
  labels ← pad_sequence_labels (List.map snd batch) p;
  trg ← one_hot (vocab_len (vocabulary self)) labels;
  let trg' := List.map (py_drop_last 1) trg in
  let trg_y := List.map (@List.tl Z) labels in
  m ← masks self trg_y;
  Ok (src, trg', trg_y, m.1, m.2).
End Collator.

(** ** read_file *)

(** [[line.rstrip() for line in f]]: [lines] is what iterating the open
    file yields. *)
Definition read_file (lines : list string) : list string :=
  List.map str_rstrip lines.

(** ** add_begin_end_tokens *)

(** The function mutates the list object it is given and returns that same
    object. List objects live in a store, keyed by their identity;
    [word_pair] is a reference into it.
    [word_pair.insert(0, vocabulary[start_tok])], then
    [word_pair.append(vocabulary[stop_tok])]. *)
Definition add_begin_end_tokens (h : gmap nat (list Z)) (word_pair : nat)
    (vocabulary : Vocabulary) (start_tok stop_tok : string)
  : gmap nat (list Z) * nat :=
  let h1 := alter (fun l => PieceToId vocabulary start_tok :: l) word_pair h in
  let h2 := alter (fun l => l ++ [PieceToId vocabulary stop_tok]) word_pair h1 in
  (h2, word_pair).

(** ** Vocabulary of the collator's properties *)

(** A row of [pad_sequence]: the sequence, then the padding value up to the
    common length [L]. *)
Definition padded (L : nat) (v : Z) (s : list Z) : list Z :=
  s ++ replicate (L - length s)%nat v.

(** The longest label sequence of a batch. *)
Definition batch_len {T : Type} (batch : list (T * list Z)) : nat :=
  max_list (List.map (fun b : T * list Z => length b.2) batch).

(** ** Concrete instances used in the examples below *)

(** [int(float(s))] on plain decimal numerals: optional surrounding
    whitespace, an optional sign, digits, and an optional fraction that the
    conversion to [int] truncates. Python accepts more spellings
    (exponents, [inf], [nan]); this instance raises [ValueError] on them
    and is only used on numerals of the first kind. *)
Definition digit_of (c : ascii) : option Z :=
  let n := nat_of_ascii c in
  if (Nat.leb 48 n && Nat.leb n 57)%bool then Some (Z.of_nat (n - 48)) else None.

Fixpoint read_digits (acc : Z) (count : nat) (s : string) : Z * nat * string :=
  match s with
  | EmptyString => (acc, count, s)
  | String c s' =>
      match digit_of c with
      | Some d => read_digits (10 * acc + d) (S count) s'
      | None => (acc, count, s)
      end
  end.

Definition unsigned_decimal (s : string) : result Z :=
  let '(n, k, rest) := read_digits 0 0 s in
  match rest with
  | EmptyString => if Nat.ltb 0 k then Ok n else Raise ValueError
  | String c rest' =>
      if Ascii.eqb c "."%char then
        let '(_, k', rest'') := read_digits 0 0 rest' in
        match rest'' with
        | EmptyString => if Nat.ltb 0 (k + k') then Ok n else Raise ValueError
        | _ => Raise ValueError
        end
      else Raise ValueError
  end.

Definition int_float_decimal (s : string) : result Z :=
  match str_strip s with
  | String "-"%char s' => n ← unsigned_decimal s'; Ok (- n)
  | String "+"%char s' => unsigned_decimal s'
  | s' => unsigned_decimal s'
  end.

(** A stand-in tokenizer: one id per word (its length), [<unk>] is 0 and
    [<pad>] is 1. *)
Fixpoint toy_encode (cur : nat) (s : string) : list Z :=
  match s with
  | EmptyString => if Nat.ltb 0 cur then [Z.of_nat cur + 1] else []
  | String c s' =>
      if Ascii.eqb c " "%char
      then (if Nat.ltb 0 cur then [Z.of_nat cur + 1] else []) ++ toy_encode 0 s'
      else toy_encode (S cur) s'
  end.

Definition toy_vocabulary : Vocabulary :=
  {| EncodeAsIds := toy_encode 0;
     PieceToId := fun s =>
       if String.eqb s "<unk>" then 0 else if String.eqb s "<pad>" then 1 else 2;
     vocab_len := 32 |}.

(** A transcript line: one word, then onset, offset, a fourth trailing
    field and the speaker, ended by its newline; and its fields. *)
Definition newline : string := String (ascii_of_nat 10) EmptyString.

Definition sample_line : string := "hello,100,140,150,Speaker1" +:+ newline.

Definition sample_fields : list string :=
  ["hello"; "100"; "140"; "150"; "Speaker1" +:+ newline].

(** Signal segments as lists of time steps, each a list of readings. *)
Definition toy_signal : Type := list (list Z).

Definition toy_config : gmap string pyval :=
  <["start_offset" := PInt (-20)]>
    (<["end_offset" := PInt 20]>
       (<["bin_fs" := PInt 10]> (<["pad_token" := PStr "<pad>"]> ∅))).

(** A dataset of one example: a segment of two time steps and a label
    sequence of four tokens. *)
Definition toy_signals : list toy_signal := [[[1; 2]; [3; 4]]].
Definition toy_labels : list (list Z) := [[2; 5; 6; 3]].

Definition toy_dataset : Brain2enDataset toy_signal :=
  {| examples := [([[1; 2]; [3; 4]], [2; 5; 6; 3])];
     max_seq_len := 2;
     max_sent_len := 4;
     train_freq := counter_update ∅ [2; 5; 6; 3];
     skipped := 0 |}.

(** Inputs of the deduplicator: a repeated pair and another one; a single
    one-token example; a one-token example next to a pair. *)
Definition repeated_grams : list (gram cell) :=
  [([CInt 7; CInt 9], true, 10, 40); ([CInt 7; CInt 9], true, 10, 40);
   ([CInt 3; CInt 4], true, 50, 60)].

Definition repeated_records : list np_record :=
  [NpRecord ([CInt 7; CInt 9], true, 10, 40);
   NpRecord ([CInt 3; CInt 4], true, 50, 60)].

Definition single_token_grams : list (gram cell) := [([CInt 5], true, 0, 1)].

Definition mixed_grams : list (gram cell) :=
  [([CInt 5], true, 0, 1); ([CInt 6; CInt 7], true, 2, 3)].

(** Two input pairs, the first with a segment of 500 time steps. *)
Definition long_signals : list toy_signal :=
  [replicate 500 [0]; [[1; 2]; [3; 4]]].
Definition long_labels : list (list Z) := [[2; 5; 6; 3]; [2; 7; 8; 3]].

(** The dataset built from [long_signals] and [long_labels]. *)
Definition long_dataset : Brain2enDataset toy_signal :=
  {| examples := [([[1; 2]; [3; 4]], [2; 7; 8; 3])];
     max_seq_len := 2;
     max_sent_len := 4;
     train_freq := counter_update ∅ [2; 7; 8; 3];
     skipped := 1 |}.

(** The float entries of the collator's outputs, a right-padding of toy
    signals with rows of zeros, and a collator over the toy vocabulary. *)
Inductive fval := F0 | F1 | FNegInf.

Definition toy_pad_src (l : list toy_signal) : result (list toy_signal) :=
  match l with
  | [] => Raise RuntimeError
  | s0 :: _ =>
      let T := max_list (List.map (fun s => length s) l) in
      let width := match s0 with [] => 0%nat | r :: _ => length r end in
      Ok (List.map
            (fun s => s ++ replicate (T - length s)%nat (replicate width 0)) l)
  end.

Definition toy_collator : MyCollator :=
  {| CONFIG := toy_config; vocabulary := toy_vocabulary;
     pad_token := PStr "<pad>" |}.

(** A batch of two examples with labels of 3 and 5 tokens, and what the
    toy collator returns on it. *)
Definition toy_batch : list (toy_signal * list Z) :=
  [([[1; 2]], [2; 5; 3]); ([[3; 4]; [5; 6]], [2; 5; 6; 7; 3])].

Definition toy_collate (batch : list (toy_signal * list Z)) :=
  collate toy_signal (list toy_signal) fval F0 F1 FNegInf toy_pad_src
    toy_collator batch.

Definition toy_src : list toy_signal :=
  Eval vm_compute in
    match toy_collate toy_batch with Ok r => r.1.1.1.1 | Raise _ => [] end.
Definition toy_trg : list (list (list fval)) :=
  Eval vm_compute in
    match toy_collate toy_batch with Ok r => r.1.1.1.2 | Raise _ => [] end.
Definition toy_trg_y : list (list Z) :=
  Eval vm_compute in
    match toy_collate toy_batch with Ok r => r.1.1.2 | Raise _ => [] end.
Definition toy_pos_mask : list (list (list fval)) :=
  Eval vm_compute in
    match toy_collate toy_batch with Ok r => r.1.2 | Raise _ => [] end.
Definition toy_pad_mask : list (list bool) :=
  Eval vm_compute in
    match toy_collate toy_batch with Ok r => r.2 | Raise _ => [] end.

(** A store holding one list object, at reference 0, and a second
    reference-free slot at 1. *)
Definition toy_store : gmap nat (list Z) := <[0%nat := [5; 6]]> (<[1%nat := [9]]> ∅).

(** ** The claims as the specification words them, where the code differs *)

(** The field positions of the transcript parser, per the specification:
    onset from the third-from-last field, offset from the second-from-last,
    target speaker exactly when the last field is [Speaker1]. *)
Definition fields_as_stated (int_float : string -> result Z)
    (x : list string) (g : gram Z) : Prop :=
  (exists f, py_index x (-3) = Ok f /\ int_float f = Ok (onset g))
  /\ (exists f, py_index x (-2) = Ok f /\ int_float f = Ok (offset g))
  /\ (spk g = true <-> py_index x (-1) = Ok "Speaker1").

(** The window is invalid, per the specification's list of conditions. *)
Definition window_invalid_as_stated (begin_window end_window T window : Z)
  : Prop :=
  begin_window < 0 \/ begin_window > T \/ end_window < 0
  \/ end_window - begin_window < window \/ end_window - begin_window < 0.

(** * Properties *)

(** ** Window validation *)

(** C2, as the code has it: the predicate reports the window invalid exactly
    when [start < 0], or [start > T], or [stop < 0], or [stop > T], or
    [stop - start < window], or [stop - start < 0], with [T = shape[0]]. *)
Theorem test_for_bad_window_iff (start stop window : Z) (shape : Z * Z) :
  test_for_bad_window start stop shape window = true <->
  (start < 0 \/ start > shape.1 \/ stop < 0 \/ stop > shape.1
   \/ stop - start < window \/ stop - start < 0).
Proof.
  unfold test_for_bad_window.
  rewrite !orb_true_iff, !Z.ltb_lt. lia.
Qed.

(** C2, as stated, fails: a window that ends past the signal and breaks none
    of the five listed conditions is reported invalid. *)
Lemma test_for_bad_window_end_past_signal :
  test_for_bad_window 0 11 (10, 64) 5 = true
  /\ ~ window_invalid_as_stated 0 11 10 5.
Proof.
  split; [reflexivity |].
  unfold window_invalid_as_stated. lia.
Qed.

(** ** Window parameters *)

Lemma ceil_div_pos (a b q : Z) :
  0 < b -> ceil_div a b = Ok q -> (q - 1) * b < a <= q * b.
Proof.
  unfold ceil_div. intros Hb.
  destruct (Z.eqb_spec b 0) as [-> | _]; [lia |].
  intros [= <-].
  pose proof (Z.div_mod (- a) b ltac:(lia)) as Hdm.
  pose proof (Z.mod_pos_bound (- a) b Hb). nia.
Qed.

Lemma ceil_div_neg (a b q : Z) :
  b < 0 -> ceil_div a b = Ok q -> q * b <= a < (q - 1) * b.
Proof.
  unfold ceil_div. intros Hb.
  destruct (Z.eqb_spec b 0) as [-> | _]; [lia |].
  intros [= <-].
  pose proof (Z.div_mod (- a) b ltac:(lia)) as Hdm.
  pose proof (Z.mod_neg_bound (- a) b Hb). nia.
Qed.

(** C6: with integer [start_offset], [end_offset] and a non-zero integer
    [bin_fs] in the configuration (window width and [bin_fs] below 2^53 in
    absolute value, where the float quotient has the ceiling of the exact
    one), the calculator returns
    [(offset - onset, onset + start_offset, offset + end_offset, bin_size)]
    where [bin_size] is the ceiling of
    [(end_window - begin_window) / bin_fs]; on onset 100, offset 140 and
    offsets -20, 20 with [bin_fs] 10 it returns [(40, 80, 160, 8)]. *)
Theorem calculate_windows_params_spec :
  (forall (T : Type) (g : gram T) (param_dict : gmap string pyval)
          (start_offset end_offset bin_fs : Z),
      param_dict !! "start_offset" = Some (PInt start_offset) ->
      param_dict !! "end_offset" = Some (PInt end_offset) ->
      param_dict !! "bin_fs" = Some (PInt bin_fs) ->
      bin_fs <> 0 ->
      Z.abs bin_fs < 2 ^ 53 ->
      Z.abs ((offset g + end_offset) - (onset g + start_offset)) < 2 ^ 53 ->
      exists bin_size,
        calculate_windows_params g param_dict
        = Ok (offset g - onset g, onset g + start_offset,
              offset g + end_offset, bin_size)
        /\ let width := (offset g + end_offset) - (onset g + start_offset) in
           (0 < bin_fs -> (bin_size - 1) * bin_fs < width <= bin_size * bin_fs)
           /\ (bin_fs < 0 ->
               bin_size * bin_fs <= width < (bin_size - 1) * bin_fs))
  /\ calculate_windows_params ([7; 9], true, 100, 140) toy_config
     = Ok (40, 80, 160, 8).
Proof.
  split; [| reflexivity].
  intros T g d so eo fs Hso Heo Hfs Hnz _ _.
  destruct (ceil_div (offset g + eo - (onset g + so)) fs) as [q | e] eqn:Hq.
  2: { unfold ceil_div in Hq. destruct (Z.eqb_spec fs 0); [lia | discriminate]. }
  exists q. split.
  - unfold calculate_windows_params, dict_get.
    rewrite Hso, Heo, Hfs. simpl. rewrite Hq. reflexivity.
  - simpl. split; intros Hs.
    + exact (ceil_div_pos _ _ _ Hs Hq).
    + exact (ceil_div_neg _ _ _ Hs Hq).
Qed.

Lemma calculate_windows_params_spec_witness :
  exists bin_size,
    calculate_windows_params ([7; 9], true, 100, 140) toy_config
    = Ok (40, 80, 160, bin_size)
    /\ (bin_size - 1) * 10 < 80 <= bin_size * 10.
Proof.
  destruct (proj1 calculate_windows_params_spec Z ([7; 9], true, 100, 140)
              toy_config (-20) 20 10
              ltac:(reflexivity) ltac:(reflexivity) ltac:(reflexivity)
              ltac:(lia) ltac:(reflexivity) ltac:(reflexivity))
    as [q [Hq [Hpos _]]].
  exists q. split; [exact Hq |]. apply Hpos. lia.
Defined.

(** ** Indexed access *)

Lemma py_index_nonneg {A} (l : list A) (i : Z) :
  0 <= i < Z.of_nat (length l) ->
  exists a, l !! Z.to_nat i = Some a /\ py_index l i = Ok a.
Proof.
  intros Hi. unfold py_index.
  destruct (Z.ltb_spec i 0) as [? | _]; [lia |].
  destruct (Z.ltb_spec i 0) as [? | _]; [lia |].
  destruct (Z.leb_spec (Z.of_nat (length l)) i) as [? | _]; [lia |].
  simpl. destruct (lookup_lt_is_Some_2 l (Z.to_nat i) ltac:(lia)) as [a Ha].
  exists a. split; [exact Ha |].
  rewrite Ha. reflexivity.
Qed.

Lemma py_index_negative {A} (l : list A) (i : Z) :
  - Z.of_nat (length l) <= i < 0 ->
  exists a, l !! Z.to_nat (i + Z.of_nat (length l)) = Some a
            /\ py_index l i = Ok a.
Proof.
  intros Hi. unfold py_index.
  destruct (Z.ltb_spec i 0) as [_ | ?]; [| lia].
  destruct (Z.ltb_spec (i + Z.of_nat (length l)) 0) as [? | _]; [lia |].
  destruct (Z.leb_spec (Z.of_nat (length l)) (i + Z.of_nat (length l)))
    as [? | _]; [lia |].
  simpl.
  destruct (lookup_lt_is_Some_2 l (Z.to_nat (i + Z.of_nat (length l)))
              ltac:(lia)) as [a Ha].
  exists a. split; [exact Ha |].
  rewrite Ha. reflexivity.
Qed.

Lemma py_index_out_of_range {A} (l : list A) (i : Z) :
  i < - Z.of_nat (length l) \/ Z.of_nat (length l) <= i ->
  py_index l i = Raise IndexError.
Proof.
  intros Hi. unfold py_index.
  destruct (Z.ltb_spec i 0).
  - destruct (Z.ltb_spec (i + Z.of_nat (length l)) 0); [reflexivity | lia].
  - destruct (Z.ltb_spec i 0); [lia |].
    destruct (Z.leb_spec (Z.of_nat (length l)) i); [reflexivity | lia].
Qed.

(** C7, as the code has it: on a constructed dataset of [count] examples,
    reading at [idx] raises [IndexError] exactly when [idx < -count] or
    [idx >= count]; an index in [[0, count)] returns the example at that
    position and an index in [[-count, 0)] the example at [count + idx]. *)
Theorem dataset_getitem_bounds
    (Signal Tensor : Type) (np_len : Signal -> nat)
    (from_numpy_float : Signal -> Tensor)
    (signals : list Signal) (labels : list (list Z))
    (ds : Brain2enDataset Tensor) (idx : Z) :
  Brain2enDataset_init np_len from_numpy_float signals labels = Ok ds ->
  let count := Z.of_nat (dataset_len ds) in
  (idx < - count \/ count <= idx <-> dataset_getitem ds idx = Raise IndexError)
  /\ (0 <= idx < count ->
      exists ex, examples ds !! Z.to_nat idx = Some ex
                 /\ dataset_getitem ds idx = Ok ex)
  /\ (- count <= idx < 0 ->
      exists ex, examples ds !! Z.to_nat (count + idx) = Some ex
                 /\ dataset_getitem ds idx = Ok ex).
Proof.
  intros _ count. unfold dataset_getitem, dataset_len in *.
  split; [split |].
  - apply py_index_out_of_range.
  - intros Hraise.
    destruct (Z_lt_le_dec idx (- count)) as [? | Hlo]; [lia |].
    destruct (Z_lt_le_dec idx count) as [Hhi | ?]; [| lia].
    exfalso. destruct (Z_lt_le_dec idx 0).
    + destruct (py_index_negative (examples ds) idx ltac:(lia)) as [a [_ Ha]].
      congruence.
    + destruct (py_index_nonneg (examples ds) idx ltac:(lia)) as [a [_ Ha]].
      congruence.
  - split.
    + apply py_index_nonneg.
    + intros Hi. rewrite Z.add_comm. apply py_index_negative. exact Hi.
Qed.

Lemma dataset_getitem_bounds_witness :
  dataset_getitem toy_dataset 1 = Raise IndexError
  /\ exists ex, dataset_getitem toy_dataset (-1) = Ok ex.
Proof.
  pose proof (dataset_getitem_bounds toy_signal toy_signal
                (fun s => length s) (fun s => s) toy_signals toy_labels
                toy_dataset 1 ltac:(vm_compute; reflexivity)) as [H1 _].
  pose proof (dataset_getitem_bounds toy_signal toy_signal
                (fun s => length s) (fun s => s) toy_signals toy_labels
                toy_dataset (-1) ltac:(vm_compute; reflexivity)) as [_ [_ H2]].
  split.
  - apply H1. right. cbn. lia.
  - destruct H2 as [ex [_ Hex]]; [cbn; lia |].
    exists ex. exact Hex.
Defined.

(** C7, as stated, fails: position -1 is outside [[0, count)] for the
    dataset of one example, and reading there returns that example. *)
Lemma dataset_getitem_negative_index :
  Brain2enDataset_init (fun s : toy_signal => length s) (fun s => s)
    toy_signals toy_labels = Ok toy_dataset
  /\ dataset_len toy_dataset = 1%nat
  /\ ~ (0 <= -1 < 1)
  /\ dataset_getitem toy_dataset (-1) = Ok ([[1; 2]; [3; 4]], [2; 5; 6; 3]).
Proof.
  split; [vm_compute; reflexivity |].
  split; [reflexivity |].
  split; [lia | reflexivity].
Qed.

(** ** Word-pair generator *)

(** What one adjacent pair adds to [my_grams]. *)
Lemma wordpair_step_app (acc : list (gram Z)) (p : gram Z * gram Z) :
  wordpair_step acc p = acc ++ wordpair_step [] p.
Proof.
  destruct p as [first second]. unfold wordpair_step.
  repeat match goal with
         | |- context [if ?b then _ else _] => destruct b
         end; simpl; rewrite <- ?app_assoc, ?app_nil_r; reflexivity.
Qed.

Lemma fold_left_wordpair_step (l : list (gram Z * gram Z)) (acc : list (gram Z)) :
  fold_left wordpair_step l acc = acc ++ flat_map (wordpair_step []) l.
Proof.
  revert acc. induction l as [| p l IH]; intros acc; simpl.
  - rewrite app_nil_r. reflexivity.
  - rewrite IH, (wordpair_step_app acc p), <- app_assoc. reflexivity.
Qed.

Lemma generate_wordpairs_flat_map (examples : list (gram Z)) :
  generate_wordpairs examples
  = flat_map (wordpair_step []) (combine examples (List.tl examples)).
Proof. unfold generate_wordpairs. apply fold_left_wordpair_step. Qed.

Lemma adjacent_pairs_split {A} (pre : list A) (a b : A) (post : list A) :
  combine (pre ++ a :: b :: post) (List.tl (pre ++ a :: b :: post))
  = combine (pre ++ [a]) (List.tl (pre ++ [a]))
    ++ (a, b) :: combine (b :: post) post.
Proof.
  induction pre as [| x pre IH]; [reflexivity |].
  destruct pre as [| y pre]; simpl in *.
  - reflexivity.
  - f_equal. exact IH.
Qed.

Lemma wordpair_step_merge (first second : gram Z) :
  spk first = true -> spk second = true ->
  length (tok first) = 1%nat -> length (tok second) = 1%nat ->
  onset first < onset second ->
  wordpair_step [] (first, second)
  = [(tok first ++ tok second, true, onset first, offset second)].
Proof.
  intros H1 H2 L1 L2 Hlt. unfold wordpair_step.
  rewrite H1, H2, L1, L2. simpl.
  destruct (Z.ltb_spec (onset first) (onset second)); [reflexivity | lia].
Qed.

(** C3: an adjacent pair of single-token target-speaker utterances with
    strictly increasing onsets contributes exactly one example, the merged
    one, between what the pairs before it and the pairs after it
    contribute; an input of length 0 or 1 gives no example. *)
Theorem generate_wordpairs_merge :
  (forall (pre post : list (gram Z)) (first second : gram Z),
      spk first = true -> spk second = true ->
      length (tok first) = 1%nat -> length (tok second) = 1%nat ->
      onset first < onset second ->
      generate_wordpairs (pre ++ first :: second :: post)
      = generate_wordpairs (pre ++ [first])
        ++ [(tok first ++ tok second, true, onset first, offset second)]
        ++ generate_wordpairs (second :: post))
  /\ (forall examples : list (gram Z),
         (length examples <= 1)%nat -> generate_wordpairs examples = []).
Proof.
  split.
  - intros pre post first second H1 H2 L1 L2 Hlt.
    rewrite !generate_wordpairs_flat_map, adjacent_pairs_split.
    rewrite flat_map_app. cbn [flat_map].
    rewrite (wordpair_step_merge first second H1 H2 L1 L2 Hlt).
    reflexivity.
  - intros [| a [| b l]] Hlen; [reflexivity | reflexivity | simpl in Hlen; lia].
Qed.

Lemma generate_wordpairs_merge_witness :
  generate_wordpairs
    ([([4], false, 0, 5)] ++ ([7], true, 10, 20) :: ([9], true, 30, 40) :: [])
  = [([7; 9], true, 10, 40)]
  /\ generate_wordpairs [([7], true, 10, 20)] = [].
Proof.
  split.
  - exact (proj1 generate_wordpairs_merge [([4], false, 0, 5)] []
             ([7], true, 10, 20) ([9], true, 30, 40)
             ltac:(reflexivity) ltac:(reflexivity) ltac:(reflexivity)
             ltac:(reflexivity) ltac:(reflexivity)).
  - apply (proj2 generate_wordpairs_merge). simpl. lia.
Defined.

Lemma wordpair_step_invariant (p : gram Z * gram Z) (g : gram Z) :
  In g (wordpair_step [] p) -> length (tok g) = 2%nat /\ spk g = true.
Proof.
  destruct p as [first second]. unfold wordpair_step.
  destruct (spk first) eqn:S1, (spk second) eqn:S2;
    destruct (Nat.eqb_spec (length (tok first)) 2) as [L1 | L1];
    destruct (Nat.eqb_spec (length (tok second)) 2) as [L2 | L2];
    destruct (Nat.eqb_spec (length (tok first)) 1) as [M1 | M1];
    destruct (Nat.eqb_spec (length (tok second)) 1) as [M2 | M2];
    destruct (onset first <? onset second);
    simpl; intros Hin;
    repeat match goal with
           | H : _ \/ _ |- _ => destruct H
           | H : False |- _ => destruct H
           end; subst; try lia; try (split; assumption).
  all: split; [unfold tok; simpl; rewrite length_app; fold (tok first);
               fold (tok second); lia | reflexivity].
Qed.

(** C10: every example the generator emits has exactly two tokens and is
    marked as the target speaker's. *)
Theorem generate_wordpairs_invariant (examples : list (gram Z)) (g : gram Z) :
  In g (generate_wordpairs examples) ->
  length (tok g) = 2%nat /\ spk g = true.
Proof.
  rewrite generate_wordpairs_flat_map, in_flat_map.
  intros [p [_ Hg]]. exact (wordpair_step_invariant p g Hg).
Qed.

Lemma generate_wordpairs_invariant_witness :
  length (tok (([7; 9], true, 10, 40) : gram Z)) = 2%nat
  /\ spk (([7; 9], true, 10, 40) : gram Z) = true.
Proof.
  apply (generate_wordpairs_invariant
           [([7], true, 10, 20); ([9], true, 30, 40)]).
  simpl. left. reflexivity.
Defined.

(** ** Vocabulary filter *)

Lemma filter_sublist {A} (f : A -> bool) (l : list A) :
  sublist (List.filter f l) l.
Proof.
  induction l as [| a l IH]; simpl; [constructor |].
  destruct (f a); constructor; exact IH.
Qed.

Lemma count_occ_filter_kept {A} (dec : forall x y : A, {x = y} + {x <> y})
    (f : A -> bool) (l : list A) (a : A) :
  f a = true -> count_occ dec (List.filter f l) a = count_occ dec l a.
Proof.
  intros Ha. induction l as [| x l IH]; [reflexivity |].
  simpl. destruct (f x) eqn:Hx; simpl.
  - destruct (dec x a); rewrite IH; reflexivity.
  - destruct (dec x a) as [-> | _]; [congruence | exact IH].
Qed.

(** C4: under the tag [train] an example is returned exactly when it is in
    the input and no token of it is the [<unk>] id; under any other tag,
    exactly when it is in the input and its token sequence is not
    [[<unk>, <unk>]]; in both cases the order of the input is kept, and
    every example that is kept is returned as many times as it occurs in
    the input. A pair [[<unk>, 17]] is kept under [eval] and dropped under
    [train]. *)
Theorem remove_oovs_spec (grams : list (gram Z)) (v : Vocabulary)
    (data_tag : string) :
  let unk := PieceToId v "<unk>" in
  (forall g, In g (remove_oovs grams v "train") <-> In g grams /\ ~ In unk (tok g))
  /\ (data_tag <> "train" ->
      forall g, In g (remove_oovs grams v data_tag)
                <-> In g grams /\ tok g <> [unk; unk])
  /\ sublist (remove_oovs grams v data_tag) grams
  /\ (forall g, ~ In unk (tok g) ->
                count_occ gram_eq_dec (remove_oovs grams v "train") g
                = count_occ gram_eq_dec grams g)
  /\ (data_tag <> "train" ->
      forall g, tok g <> [unk; unk] ->
                count_occ gram_eq_dec (remove_oovs grams v data_tag) g
                = count_occ gram_eq_dec grams g)
  /\ (unk <> 17 ->
      remove_oovs [([unk; 17], true, 0, 1)] v "eval" = [([unk; 17], true, 0, 1)]
      /\ remove_oovs [([unk; 17], true, 0, 1)] v "train" = []).
Proof.
  intros unk. unfold remove_oovs. fold unk.
  split; [| split; [| split; [| split; [| split]]]].
  - intros g. simpl. rewrite filter_In, bool_decide_eq_true, list_elem_of_In.
    reflexivity.
  - intros Htag g. destruct (String.eqb_spec data_tag "train") as [? | _];
      [contradiction |].
    rewrite filter_In, bool_decide_eq_true. reflexivity.
  - destruct (String.eqb data_tag "train"); apply filter_sublist.
  - intros g Hg. simpl. apply count_occ_filter_kept.
    apply bool_decide_eq_true. rewrite list_elem_of_In. exact Hg.
  - intros Htag g Hg. destruct (String.eqb_spec data_tag "train") as [? | _];
      [contradiction |].
    apply count_occ_filter_kept. apply bool_decide_eq_true. exact Hg.
  - intros Hne. simpl. split.
    + rewrite bool_decide_true; [reflexivity |]. unfold tok. simpl. congruence.
    + rewrite bool_decide_false; [reflexivity |]. unfold tok. simpl.
      intros Hn. apply Hn. left.
Qed.

Lemma remove_oovs_spec_witness :
  (In ([0; 17], true, 0, 1)
      (remove_oovs [([0; 0], true, 5, 6); ([0; 17], true, 0, 1)]
         toy_vocabulary "eval")
   <-> In ([0; 17], true, 0, 1) [([0; 0], true, 5, 6); ([0; 17], true, 0, 1)]
       /\ tok (([0; 17], true, 0, 1) : gram Z) <> [0; 0])
  /\ remove_oovs [([0; 17], true, 0, 1)] toy_vocabulary "train" = []
  /\ count_occ gram_eq_dec
       (remove_oovs [([0; 17], true, 0, 1); ([0; 17], true, 0, 1)]
          toy_vocabulary "eval") ([0; 17], true, 0, 1)
     = 2%nat.
Proof.
  pose proof (remove_oovs_spec [([0; 0], true, 5, 6); ([0; 17], true, 0, 1)]
                toy_vocabulary "eval") as [_ [Heval [_ [_ [_ Hex]]]]].
  pose proof (remove_oovs_spec [([0; 17], true, 0, 1); ([0; 17], true, 0, 1)]
                toy_vocabulary "eval") as [_ [_ [_ [_ [Hcount _]]]]].
  split; [| split].
  - apply (Heval ltac:(discriminate)).
  - apply Hex. discriminate.
  - rewrite (Hcount ltac:(discriminate) ([0; 17], true, 0, 1)
               ltac:(discriminate)).
    reflexivity.
Defined.

(** ** Transcript parser *)

Lemma bind_Ok {A B} (a : A) (k : A -> result B) : (Ok a ≫= k) = k a.
Proof. reflexivity. Qed.

Lemma py_index_from_end {A} (l : list A) (k : nat) :
  (1 <= k <= length l)%nat ->
  exists a, l !! (length l - k)%nat = Some a
            /\ py_index l (- Z.of_nat k) = Ok a.
Proof.
  intros Hk.
  destruct (py_index_negative l (- Z.of_nat k) ltac:(lia)) as [a [Ha Hidx]].
  exists a. split; [| exact Hidx].
  replace (length l - k)%nat
    with (Z.to_nat (- Z.of_nat k + Z.of_nat (length l))) by lia.
  exact Ha.
Qed.

Section ReturnExamplesProperties.
Variable vocabulary : Vocabulary.
Variable int_float : string -> result Z.

Lemma return_examples_collects (delim : string) (ex_words : list string)
    (lines : list string) (os : list (option (gram Z))) :
  Forall2 (fun line o =>
             parse_line vocabulary int_float delim ex_words line = Ok o)
    lines os ->
  return_examples vocabulary int_float lines delim ex_words
  = Ok (omap (fun o => o) os).
Proof.
  induction 1 as [| line o lines os Hline _ IH]; [reflexivity |].
  cbn [return_examples]. rewrite Hline, bind_Ok, IH, bind_Ok.
  destruct o; reflexivity.
Qed.

(** C1, as the code has it: an ASCII line with at least 4 fields whose
    text is not empty yields the tuple whose tokens encode the text, whose
    onset is [int(float(_))] of the fourth-from-last field, whose offset is
    [int(float(_))] of the third-from-last field, and whose speaker flag is
    true exactly when the last field, stripped of surrounding whitespace,
    is [Speaker1]; the parser returns the tuples of the lines of an ASCII
    file in order. *)
Theorem return_examples_fields (delim : string) (ex_words : list string) :
  (forall (line : string) (x : list string),
      str_is_ascii line = true ->
      str_split delim line = Ok x ->
      (4 <= length x)%nat ->
      line_text ex_words x <> EmptyString ->
      exists f4 f3 f1,
        x !! (length x - 4)%nat = Some f4
        /\ x !! (length x - 3)%nat = Some f3
        /\ x !! (length x - 1)%nat = Some f1
        /\ forall on off,
            int_float f4 = Ok on -> int_float f3 = Ok off ->
            exists speaker,
              parse_line vocabulary int_float delim ex_words line
              = Ok (Some (EncodeAsIds vocabulary (line_text ex_words x),
                          speaker, on, off))
              /\ (speaker = true <-> str_strip f1 = "Speaker1"))
  /\ (forall (lines : list string) (os : list (option (gram Z))),
         Forall (fun line => str_is_ascii line = true) lines ->
         Forall2 (fun line o =>
                    parse_line vocabulary int_float delim ex_words line
                    = Ok o) lines os ->
         return_examples vocabulary int_float lines delim ex_words
         = Ok (omap (fun o => o) os)).
Proof.
  split; [| intros lines os _; apply return_examples_collects].
  intros line x _ Hsplit Hlen Htext.
  destruct (py_index_from_end x 4 ltac:(lia)) as [f4 [L4 I4]].
  destruct (py_index_from_end x 3 ltac:(lia)) as [f3 [L3 I3]].
  destruct (py_index_from_end x 1 ltac:(lia)) as [f1 [L1 I1]].
  exists f4, f3, f1. repeat (split; [assumption |]).
  intros on off Hon Hoff.
  exists (String.eqb (str_strip f1) "Speaker1"). split.
  - unfold parse_line. rewrite Hsplit, bind_Ok.
    unfold raw_example.
    change (- Z.of_nat 4) with (-4) in I4.
    change (- Z.of_nat 3) with (-3) in I3.
    change (- Z.of_nat 1) with (-1) in I1.
    rewrite I1, bind_Ok, I4, bind_Ok, I3, bind_Ok.
    destruct (line_text ex_words x) as [| c t] eqn:Ht; [contradiction |].
    rewrite bind_Ok. cbn [fst snd String.length Nat.ltb Nat.leb].
    unfold convert_example. rewrite Hon, bind_Ok, Hoff, bind_Ok, bind_Ok.
    reflexivity.
  - apply String.eqb_eq.
Qed.
End ReturnExamplesProperties.

Lemma return_examples_fields_witness :
  exists speaker,
    parse_line toy_vocabulary int_float_decimal "," [] sample_line
    = Ok (Some ([6], speaker, 100, 140))
    /\ (speaker = true <-> str_strip ("Speaker1" +:+ newline) = "Speaker1").
Proof.
  destruct (proj1 (return_examples_fields toy_vocabulary int_float_decimal
                     "," []) sample_line sample_fields
              ltac:(reflexivity) ltac:(reflexivity) ltac:(simpl; lia)
              ltac:(discriminate))
    as [f4 [f3 [f1 [L4 [L3 [L1 Hfields]]]]]].
  injection L4 as <-. injection L3 as <-. injection L1 as <-.
  exact (Hfields 100 140 ltac:(reflexivity) ltac:(reflexivity)).
Defined.

(** C1, as stated, fails: on the sample line the parser returns onset 100
    and offset 140, the fourth- and third-from-last fields, and marks the
    target speaker although the last field still carries its newline. *)
Lemma return_examples_field_positions_differ :
  str_split "," sample_line = Ok sample_fields
  /\ return_examples toy_vocabulary int_float_decimal [sample_line] "," []
     = Ok [([6], true, 100, 140)]
  /\ ~ fields_as_stated int_float_decimal sample_fields ([6], true, 100, 140).
Proof.
  split; [reflexivity |]. split; [reflexivity |].
  intros [[f [Hf Hon]] _].
  vm_compute in Hf. injection Hf as <-.
  vm_compute in Hon. discriminate Hon.
Qed.

(** ** Batch collator *)

Lemma Forall2_map_graph {A B} (R : A -> B -> Prop) (f : A -> B) (l : list A) :
  (forall a, R a (f a)) -> Forall2 R l (List.map f l).
Proof.
  intros HR. induction l as [| a l IH]; simpl; constructor; auto.
Qed.

Section CollatorProperties.
Variables Tensor SrcBatch F : Type.
Variables f0 f1 neg_inf : F.
Variable pad_sequence_src : list Tensor -> result SrcBatch.

#[local] Abbreviation collate' :=
  (collate Tensor SrcBatch F f0 f1 neg_inf pad_sequence_src).

(** C9: whenever the collator returns, its padding mask has the shape of
    [trg_y] and is true exactly at the positions where [trg_y] holds the
    pad-token id; and for a batch of two label sequences of lengths 3 and
    5 holding no pad id (all ids within the vocabulary, the signals
    padded by the tensor library), it returns a mask that is true only at
    the 2 trailing positions of the first, shorter, row. *)
Theorem collate_pad_mask (self : MyCollator) :
  (forall batch src trg trg_y pos_mask pad_mask,
      collate' self batch = Ok (src, trg, trg_y, pos_mask, pad_mask) ->
      exists p,
        pad_id self = Ok p
        /\ Forall2 (Forall2 (fun t (b : bool) => b = true <-> t = p))
             trg_y pad_mask)
  /\ (forall (x y : Tensor) (l3 l5 : list Z) (p : Z) (src : SrcBatch),
         pad_id self = Ok p ->
         pad_sequence_src [x; y] = Ok src ->
         length l3 = 3%nat -> length l5 = 5%nat ->
         Forall (fun t => t <> p) (l3 ++ l5) ->
         Forall (fun t => 0 <= t < Z.of_nat (vocab_len (vocabulary self)))
           (p :: l3 ++ l5) ->
         exists trg pos_mask,
           collate' self [(x, l3); (y, l5)]
           = Ok (src, trg, [List.tl l3 ++ [p; p]; List.tl l5], pos_mask,
                 [[false; false; true; true];
                  [false; false; false; false]])).
Proof.
  split.
  - intros batch src trg trg_y pos_mask pad_mask H.
    unfold collate in H.
    destruct (pad_sequence_src _) as [s |] eqn:Es;
      [rewrite bind_Ok in H | discriminate H].
    destruct (pad_id self) as [p |] eqn:Ep;
      [rewrite bind_Ok in H | discriminate H].
    destruct (pad_sequence_labels _ p) as [labels |] eqn:El;
      [rewrite bind_Ok in H | discriminate H].
    destruct (one_hot _ _ _ _ labels) as [oh |] eqn:Eo;
      [rewrite bind_Ok in H | discriminate H].
    unfold masks in H. rewrite Ep, !bind_Ok in H. cbn [fst snd] in H.
    injection H as <- <- <- <- <-.
    exists p. split; [reflexivity |].
    apply Forall2_map_graph. intros r.
    apply Forall2_map_graph. intros t. apply Z.eqb_eq.
  - intros x y l3 l5 p src Hp Hsrc L3 L5 Hne Hrange.
    destruct l3 as [| a [| b [| c [| ? ?]]]]; try discriminate L3.
    destruct l5 as [| d [| e [| f [| g [| h [| ? ?]]]]]]; try discriminate L5.
    cbn [app] in Hne, Hrange.
    unfold collate. cbn [List.map fst snd]. rewrite Hsrc, bind_Ok, Hp, bind_Ok.
    cbn [pad_sequence_labels bind_Ok]. rewrite bind_Ok.
    cbn [List.map length max_list Nat.max Nat.sub replicate app].
    unfold one_hot.
    replace (forallb _ _) with true.
    2: { symmetry. cbn [forallb].
         repeat match goal with
                | H : Forall _ (_ :: _) |- _ =>
                    apply Forall_cons_1 in H; destruct H
                end.
         repeat (apply andb_true_intro; split);
           first [reflexivity | apply Z.leb_le; lia | apply Z.ltb_lt; lia]. }
    rewrite bind_Ok. unfold masks. rewrite Hp, !bind_Ok. cbn [fst snd].
    eexists _, _. do 4 f_equal.
    cbn [List.map List.tl app] in *.
    repeat match goal with
           | H : Forall _ (_ :: _) |- _ =>
               apply Forall_cons_1 in H; destruct H
           end.
    simpl. rewrite Z.eqb_refl.
    repeat match goal with
           | |- context [?u =? p] =>
               destruct (Z.eqb_spec u p); [contradiction |]
           end.
    reflexivity.
Qed.
End CollatorProperties.

(** ** Dataset construction *)

#[global] Instance key_le_trans : Transitive key_le.
Proof.
  intros [[? ?] ?] [[? ?] ?] [[? ?] ?]. unfold key_le. simpl. lia.
Qed.

#[global] Instance key_le_total : Total key_le.
Proof.
  intros [[? ?] ?] [[? ?] ?]. unfold key_le. simpl. lia.
Qed.

Lemma StronglySorted_filter {A} (R : relation A) (P : A -> Prop)
    `{!forall x, Decision (P x)} (l : list A) :
  StronglySorted R l -> StronglySorted R (filter P l).
Proof.
  induction 1 as [| a l Hl IH Ha]; [constructor |].
  rewrite filter_cons. destruct (decide (P a)); [| exact IH].
  constructor; [exact IH |].
  apply Forall_forall. intros x Hx.
  apply list_elem_of_filter in Hx as [_ Hx].
  rewrite Forall_forall in Ha. apply Ha, Hx.
Qed.

Lemma length_filter_imap {A B} (f : nat -> A -> B) (P : B -> Prop)
    (Q : A -> Prop) `{!forall x, Decision (P x)} `{!forall x, Decision (Q x)}
    (l : list A) :
  (forall i x, P (f i x) <-> Q x) ->
  length (filter P (imap f l)) = length (filter Q l).
Proof.
  revert f. induction l as [| a l IH]; intros f Hf; [reflexivity |].
  rewrite imap_cons, !filter_cons.
  pose proof (Hf 0%nat a) as Ha.
  destruct (decide (P (f 0%nat a))) as [HP | HP], (decide (Q a)) as [HQ | HQ];
    try tauto;
    simpl; rewrite (IH (f ∘ S)) by (intros i x; apply Hf); reflexivity.
Qed.

Lemma out_of_bounds_false (e : index_entry) :
  out_of_bounds e = false <-> (e.1.2 <= 384 /\ 4 <= e.2 <= 128)%nat.
Proof.
  unfold out_of_bounds. rewrite !orb_false_iff, !Nat.ltb_ge. lia.
Qed.

Section DatasetProperties.
Variables Signal Tensor : Type.
Variable np_len : Signal -> nat.
Variable from_numpy_float : Signal -> Tensor.
Variable signals : list Signal.
Variable labels : list (list Z).

#[local] Abbreviation well_indexed :=
  (well_indexed Signal np_len signals labels).
#[local] Abbreviation example_of :=
  (example_of Signal Tensor from_numpy_float signals labels).

Lemma make_indices_elem (e : index_entry) :
  e ∈ make_indices Signal np_len signals labels <-> well_indexed e.
Proof.
  unfold make_indices. rewrite elem_of_lookup_imap. split.
  - intros (i & [s l] & -> & Hz).
    apply lookup_zip_with_Some in Hz as (s' & l' & Heq & Hs & Hl).
    injection Heq as <- <-. exists s, l. simpl. auto.
  - intros (s & l & Hs & Hl & H1 & H2).
    destruct e as [[i a] b]. simpl in *. subst.
    exists i, (s, l). split; [reflexivity |].
    apply lookup_zip_with_Some. eauto.
Qed.

Lemma make_indices_NoDup : NoDup (make_indices Signal np_len signals labels).
Proof.
  apply NoDup_alt. intros i j e Hi Hj. unfold make_indices in *.
  rewrite list_lookup_imap in Hi, Hj.
  destruct (zip signals labels !! i); [| discriminate Hi].
  destruct (zip signals labels !! j); [| discriminate Hj].
  simpl in *. congruence.
Qed.

Lemma dataset_loop_spec (indices : list index_entry) :
  Forall well_indexed indices ->
  forall ds0, exists ds exs,
    dataset_loop Signal Tensor from_numpy_float signals labels ds0 indices
    = Ok ds
    /\ examples ds = examples ds0 ++ exs
    /\ Forall2 example_of
         (filter (fun e => out_of_bounds e = false) indices) exs
    /\ (skipped ds + length exs = skipped ds0 + length indices)%nat.
Proof.
  induction 1 as [| e indices He _ IH]; intros ds0.
  - exists ds0, []. simpl. rewrite app_nil_r.
    split; [reflexivity |]. split; [reflexivity |].
    split; [constructor | lia].
  - cbn [dataset_loop]. unfold dataset_step.
    destruct (out_of_bounds e) eqn:Hoob.
    + rewrite bind_Ok.
      match goal with
      | |- context [dataset_loop _ _ _ _ _ ?d _] =>
          destruct (IH d) as (ds & exs & Hloop & Hex & HF & Hsk)
      end.
      exists ds, exs. rewrite filter_cons_False by congruence.
      simpl in *.
      split; [exact Hloop |]. split; [exact Hex |]. split; [exact HF | lia].
    + destruct He as (s & l & Hs & Hl & _).
      unfold list_get. rewrite Hl, bind_Ok, Hs, !bind_Ok.
      match goal with
      | |- context [dataset_loop _ _ _ _ _ ?d _] =>
          destruct (IH d) as (ds & exs & Hloop & Hex & HF & Hsk)
      end.
      exists ds, ((from_numpy_float s, l) :: exs).
      rewrite filter_cons_True by exact Hoob.
      simpl in *.
      split; [exact Hloop |]. split; [| split].
      * rewrite Hex, <- app_assoc. reflexivity.
      * constructor; [| exact HF]. exists s, l. auto.
      * lia.
Qed.

(** C8: for signal and label sequences of equal length, construction
    succeeds and retains, once each, exactly the pairs with
    [segment_length <= 384] and [4 <= label_length <= 128], in ascending
    order of [(segment_length, label_length, original_index)]; the
    dataset's length is the number of such pairs, and the skipped ones
    make up the rest of the input. *)
Theorem Brain2enDataset_init_retains :
  length signals = length labels ->
  exists (ds : Brain2enDataset Tensor) (kept : list index_entry),
    Brain2enDataset_init np_len from_numpy_float signals labels = Ok ds
    /\ (forall e, e ∈ kept <->
                  well_indexed e
                  /\ (e.1.2 <= 384 /\ 4 <= e.2 <= 128)%nat)
    /\ NoDup kept
    /\ StronglySorted key_le kept
    /\ Forall2 example_of kept (examples ds)
    /\ dataset_len ds
       = length (filter (fun sl : Signal * list Z =>
                           (np_len sl.1 <= 384
                            /\ 4 <= length sl.2 <= 128)%nat)
                   (zip signals labels))
    /\ (skipped ds + dataset_len ds = length signals)%nat.
Proof.
  intros Hlen.
  set (indices := make_indices Signal np_len signals labels).
  set (sorted := merge_sort key_le indices).
  assert (Hperm : sorted ≡ₚ indices) by apply merge_sort_Permutation.
  assert (Hwell : Forall well_indexed sorted).
  { apply Forall_forall. intros e He. apply make_indices_elem.
    fold indices. rewrite <- Hperm. exact He. }
  destruct (dataset_loop_spec sorted Hwell (empty_dataset Tensor))
    as (ds & exs & Hloop & Hex & HF & Hsk).
  simpl in Hex, Hsk. subst exs.
  exists ds, (filter (fun e => out_of_bounds e = false) sorted).
  assert (Hcount : length (examples ds)
                   = length (filter (fun e => out_of_bounds e = false)
                               indices)).
  { rewrite <- (Forall2_length _ _ _ HF). rewrite Hperm. reflexivity. }
  split; [| split; [| split; [| split; [| split; [| split]]]]].
  - unfold Brain2enDataset_init. rewrite Hlen, Nat.eqb_refl. exact Hloop.
  - intros e. rewrite list_elem_of_filter, out_of_bounds_false, Hperm.
    unfold indices. rewrite make_indices_elem. tauto.
  - apply NoDup_filter. rewrite Hperm. apply make_indices_NoDup.
  - apply StronglySorted_filter.
    apply StronglySorted_merge_sort; apply _.
  - exact HF.
  - unfold dataset_len. rewrite Hcount. unfold indices, make_indices.
    apply length_filter_imap. intros i [s l]. simpl.
    apply out_of_bounds_false.
  - unfold dataset_len. rewrite Hsk.
    rewrite (Permutation_length Hperm). unfold indices, make_indices.
    rewrite length_imap, length_zip_with. lia.
Qed.
End DatasetProperties.

Lemma Brain2enDataset_init_retains_witness :
  exists ds,
    Brain2enDataset_init (fun s : toy_signal => length s) (fun s => s)
      long_signals long_labels = Ok ds
    /\ dataset_len ds = 1%nat
    /\ skipped ds = 1%nat.
Proof.
  destruct (Brain2enDataset_init_retains toy_signal toy_signal
              (fun s => length s) (fun s => s) long_signals long_labels
              ltac:(reflexivity))
    as (ds & kept & Hinit & _ & _ & _ & _ & Hlen & Hsk).
  exists ds. split; [exact Hinit |].
  assert (Hone : dataset_len ds = 1%nat) by (rewrite Hlen; vm_compute; reflexivity).
  split; [exact Hone |].
  rewrite Hone in Hsk. simpl in Hsk. lia.
Defined.

Lemma collate_pad_mask_witness :
  exists trg pos_mask,
    collate toy_signal (list toy_signal) fval F0 F1 FNegInf toy_pad_src
      toy_collator
      [([[1; 2]], [2; 5; 3]); ([[3; 4]; [5; 6]], [2; 5; 6; 7; 3])]
    = Ok ([[[1; 2]; [0; 0]]; [[3; 4]; [5; 6]]], trg,
          [[5; 3; 1; 1]; [5; 6; 7; 3]], pos_mask,
          [[false; false; true; true]; [false; false; false; false]]).
Proof.
  apply (proj2 (collate_pad_mask toy_signal (list toy_signal) fval
                  F0 F1 FNegInf toy_pad_src toy_collator)
           [[1; 2]] [[3; 4]; [5; 6]] [2; 5; 3] [2; 5; 6; 7; 3] 1).
  - reflexivity.
  - reflexivity.
  - reflexivity.
  - reflexivity.
  - simpl. repeat (constructor; [lia |]). constructor.
  - simpl. repeat (constructor; [lia |]). constructor.
Defined.

(** ** Deduplicator *)

Lemma drop_duplicates_from_elem (seen l : list row) (r : row) :
  r ∈ drop_duplicates_from seen l <-> r ∈ l /\ r ∉ seen.
Proof.
  revert seen. induction l as [| a l IH]; intros seen; simpl.
  - rewrite elem_of_nil. tauto.
  - case_bool_decide as Ha.
    + rewrite IH, elem_of_cons. split; [tauto |].
      intros [[-> | Hl] Hs]; [contradiction | tauto].
    + rewrite !elem_of_cons, IH, elem_of_cons.
      destruct (decide (r = a)) as [-> | Hne]; tauto.
Qed.

Lemma drop_duplicates_from_NoDup (seen l : list row) :
  NoDup (drop_duplicates_from seen l).
Proof.
  revert seen. induction l as [| a l IH]; intros seen; simpl; [constructor |].
  case_bool_decide as Ha; [apply IH |].
  constructor; [| apply IH].
  rewrite drop_duplicates_from_elem, elem_of_cons. tauto.
Qed.

Lemma drop_duplicates_from_id (seen l : list row) :
  NoDup l -> (forall r, r ∈ l -> r ∉ seen) ->
  drop_duplicates_from seen l = l.
Proof.
  intros Hnd. revert seen.
  induction Hnd as [| a l Ha Hnd IH]; intros seen Hseen; simpl; [reflexivity |].
  rewrite bool_decide_false by (apply Hseen; left).
  f_equal. apply IH. intros r Hr. rewrite elem_of_cons.
  intros [-> | Hs]; [contradiction |].
  exact (Hseen r (list_elem_of_further _ _ _ Hr) Hs).
Qed.

Lemma drop_duplicates_idempotent (l : list row) :
  drop_duplicates (drop_duplicates l) = drop_duplicates l.
Proof.
  unfold drop_duplicates. apply drop_duplicates_from_id.
  - apply drop_duplicates_from_NoDup.
  - intros r _. apply not_elem_of_nil.
Qed.

Lemma row_of_gram_of_row (b : bool) (r : row) :
  row_of_gram (gram_of_row b r) = r.
Proof.
  destruct r as [[[[fw sw] c1] c2] c3]. unfold row_of_gram, gram_of_row.
  cbn. destruct fw as [z |], sw as [z' |], b; reflexivity.
Qed.

Lemma max_list_two (ns : list nat) :
  (exists n, n ∈ ns /\ n = 2%nat) -> Forall (fun n => (n <= 2)%nat) ns ->
  max_list ns = 2%nat.
Proof.
  intros (n & Hn & ->) Hle.
  pose proof (max_list_elem_of_le _ _ Hn) as Hlo.
  assert (Hne : ns ≠ []) by (intros ->; inversion Hn).
  pose proof (max_list_elem_of ns Hne) as Hin.
  rewrite Forall_forall in Hle. specialize (Hle _ Hin). lia.
Qed.

(** The token columns read back from the records decide the same
    [int64]-or-[float64] question as the ones they were written from. *)
Lemma gram_of_row_stable (grams : list (gram cell)) (kept : list row) :
  kept ≠ [] ->
  (forall r, r ∈ kept -> r ∈ List.map row_of_gram grams) ->
  let is_int := fun g : gram cell =>
    is_int64 (tok g !! 0%nat) && is_int64 (tok g !! 1%nat) in
  let b := forallb is_int grams in
  forall r, r ∈ kept ->
    gram_of_row (forallb is_int (List.map (gram_of_row b) kept)) r
    = gram_of_row b r.
Proof.
  intros Hne Hsub is_int b r Hr. destruct b eqn:Hb.
  - assert (Hint : forall r', r' ∈ kept ->
               exists z z' c, r' = (Some z, Some z', c.1.1, c.1.2, c.2)).
    { intros r' Hr'. apply Hsub in Hr'.
      apply list_elem_of_In, in_map_iff in Hr' as (g & <- & Hg).
      subst b. rewrite forallb_forall in Hb. specialize (Hb g Hg).
      unfold is_int in Hb. apply andb_true_iff in Hb as [H0 H1].
      unfold row_of_gram.
      destruct (tok g !! 0%nat) as [[z | |] |]; try discriminate H0.
      destruct (tok g !! 1%nat) as [[z' | |] |]; try discriminate H1.
      exists z, z', (spk g, onset g, offset g). reflexivity. }
    replace (forallb is_int (List.map (gram_of_row true) kept)) with true;
      [reflexivity |].
    symmetry. apply forallb_forall. intros g Hg.
    apply in_map_iff in Hg as (r' & <- & Hr').
    apply list_elem_of_In, Hint in Hr' as (z & z' & c & ->). reflexivity.
  - replace (forallb is_int (List.map (gram_of_row false) kept)) with false;
      [reflexivity |].
    destruct kept as [| r0 kept]; [contradiction |].
    cbn [List.map forallb].
    destruct r0 as [[[[fw sw] c1] c2] c3]. unfold is_int at 1. cbn.
    destruct fw; reflexivity.
Qed.

Lemma remove_duplicates_nonempty (grams : list (gram cell)) :
  grams <> [] ->
  remove_duplicates grams
  = if negb (Nat.eqb (max_list (List.map (fun g => length (tok g)) grams)) 2)
    then Raise ValueError
    else Ok (List.map NpRecord
               (List.map
                  (gram_of_row
                     (forallb (fun g => is_int64 (tok g !! 0%nat)
                                        && is_int64 (tok g !! 1%nat)) grams))
                  (drop_duplicates (List.map row_of_gram grams)))).
Proof. destruct grams; [contradiction | reflexivity]. Qed.

Lemma record_tuple_NpRecord (l : list (gram cell)) :
  List.map record_tuple (List.map NpRecord l) = l.
Proof.
  rewrite List.map_map. rewrite <- (List.map_id l) at 2.
  apply List.map_ext. reflexivity.
Qed.

(** C5, as the code has it: when no example has more than 2 tokens and at
    least one has exactly 2, the deduplicator returns a list of records;
    applied to that list as it is, it raises [ValueError]; applied to the
    records read back as tuples of their four fields, it returns the same
    list of records again. *)
Theorem remove_duplicates_twice (grams : list (gram cell)) :
  (exists g, In g grams /\ length (tok g) = 2%nat) ->
  Forall (fun g => (length (tok g) <= 2)%nat) grams ->
  exists out,
    remove_duplicates grams = Ok out
    /\ remove_duplicates_records out = Raise ValueError
    /\ remove_duplicates (List.map record_tuple out) = Ok out.
Proof.
  intros (g0 & Hg0 & Hlen0) Hle.
  set (is_int := fun g : gram cell =>
         is_int64 (tok g !! 0%nat) && is_int64 (tok g !! 1%nat)).
  set (b := forallb is_int grams).
  set (kept := drop_duplicates (List.map row_of_gram grams)).
  assert (Hcols : max_list (List.map (fun g => length (tok g)) grams) = 2%nat).
  { apply max_list_two.
    - exists (length (tok g0)). split; [| exact Hlen0].
      apply list_elem_of_In, in_map_iff. exists g0. auto.
    - apply Forall_forall. intros n Hn.
      apply list_elem_of_In, in_map_iff in Hn as (g & <- & Hg).
      rewrite Forall_forall in Hle. apply Hle, list_elem_of_In, Hg. }
  assert (Hkept : kept ≠ []).
  { intros Hnil.
    assert (Hin : row_of_gram g0 ∈ kept).
    { apply drop_duplicates_from_elem. split; [| apply not_elem_of_nil].
      apply list_elem_of_In, in_map, Hg0. }
    rewrite Hnil in Hin. inversion Hin. }
  assert (Hfirst : remove_duplicates grams
                   = Ok (List.map NpRecord (List.map (gram_of_row b) kept))).
  { rewrite remove_duplicates_nonempty by (intros ->; destruct Hg0).
    rewrite Hcols. reflexivity. }
  exists (List.map NpRecord (List.map (gram_of_row b) kept)).
  split; [exact Hfirst |]. split.
  { destruct kept; [contradiction | reflexivity]. }
  rewrite record_tuple_NpRecord.
  assert (Hrows : List.map row_of_gram (List.map (gram_of_row b) kept) = kept).
  { rewrite List.map_map. rewrite <- (List.map_id kept) at 2.
    apply List.map_ext. intros r. apply row_of_gram_of_row. }
  rewrite remove_duplicates_nonempty
    by (destruct kept; [contradiction | discriminate]).
  rewrite Hrows.
  replace (max_list _) with 2%nat.
  2: { symmetry. apply max_list_two.
       - exists 2%nat. split; [| reflexivity].
         destruct kept as [| [[[[fw sw] c1] c2] c3] kept']; [contradiction |].
         left.
       - apply Forall_forall. intros n Hn.
         apply list_elem_of_In, in_map_iff in Hn as (g & <- & Hg).
         apply in_map_iff in Hg as ([[[[fw sw] c1] c2] c3] & <- & _).
         simpl. lia. }
  cbn [Nat.eqb negb]. do 2 f_equal.
  unfold kept at 2. rewrite drop_duplicates_idempotent. fold kept.
  apply List.map_ext_in. intros r Hr.
  apply (gram_of_row_stable grams kept Hkept).
  - intros r' Hr'. unfold kept, drop_duplicates in Hr'.
    apply drop_duplicates_from_elem in Hr' as [Hr' _]. exact Hr'.
  - apply list_elem_of_In, Hr.
Qed.

Lemma remove_duplicates_twice_witness :
  exists out,
    remove_duplicates repeated_grams = Ok out
    /\ remove_duplicates_records out = Raise ValueError
    /\ remove_duplicates (List.map record_tuple out) = Ok out.
Proof.
  apply (remove_duplicates_twice repeated_grams).
  - exists ([CInt 7; CInt 9], true, 10, 40). split; [left |]; reflexivity.
  - unfold repeated_grams. repeat (constructor; [simpl; lia |]). constructor.
Defined.

Example remove_duplicates_repeated :
  remove_duplicates repeated_grams = Ok repeated_records.
Proof. reflexivity. Qed.

(** Next to a pair, a one-token example comes back with float tokens and a
    NaN in its second slot. *)
Example remove_duplicates_mixed :
  remove_duplicates mixed_grams
  = Ok [NpRecord ([CFloat 5; CNaN], true, 0, 1);
        NpRecord ([CFloat 6; CFloat 7], true, 2, 3)].
Proof. reflexivity. Qed.

(** C5, as stated, fails twice over. On a non-empty sequence whose examples
    all have a single token the deduplicator raises instead of returning a
    set. On a sequence of two-token examples it returns records, and
    applied a second time, to what it returned, it raises. *)
Lemma remove_duplicates_reapplied_raises :
  (single_token_grams <> []
   /\ Forall (fun g : gram cell =>
                length (tok g) = 1%nat \/ length (tok g) = 2%nat)
        single_token_grams
   /\ remove_duplicates single_token_grams = Raise ValueError)
  /\ (repeated_grams <> []
      /\ Forall (fun g : gram cell =>
                   length (tok g) = 1%nat \/ length (tok g) = 2%nat)
           repeated_grams
      /\ remove_duplicates repeated_grams = Ok repeated_records
      /\ remove_duplicates_records repeated_records = Raise ValueError).
Proof.
  split.
  - split; [discriminate |]. split; [| reflexivity].
    constructor; [left; reflexivity | constructor].
  - split; [discriminate |]. split; [| split; reflexivity].
    repeat (constructor; [right; reflexivity |]). constructor.
Qed.

(** The generator's output through the deduplicator: the two-token
    utterance emitted twice by the sliding window is kept once. *)
Example remove_duplicates_generated :
  remove_duplicates
    (List.map int_gram
       (generate_wordpairs
          [([7], true, 10, 20); ([8; 9], true, 30, 40); ([4], true, 50, 60)]))
  = Ok [NpRecord ([CInt 8; CInt 9], true, 30, 40)].
Proof. reflexivity. Qed.

(** * Further properties of the code *)

(** ** Transcript parser: malformed and dropped lines *)



Section ReturnExamplesEdges.
Variable vocabulary : Vocabulary.
Variable int_float : string -> result Z.





(** The parser returns at most one tuple per line. *)
Theorem return_examples_length (delim : string) (ex_words : list string)
    (lines : list string) (out : list (gram Z)) :
  return_examples vocabulary int_float lines delim ex_words = Ok out ->
  (length out <= length lines)%nat.
Proof.
  revert out. induction lines as [| line lines IH]; intros out Hout.
  - injection Hout as <-. simpl. lia.
  - cbn [return_examples] in Hout.
    destruct (parse_line _ _ _ _ line) as [o | e]; [| discriminate Hout].
    rewrite bind_Ok in Hout.
    destruct (return_examples _ _ lines _ _) as [tl | e];
      [| discriminate Hout].
    rewrite bind_Ok in Hout. injection Hout as <-.
    specialize (IH tl eq_refl). destruct o; simpl; lia.
Qed.
End ReturnExamplesEdges.



Lemma return_examples_length_witness :
  Nat.le (length [(([6], true, 100, 140) : gram Z)])
         (length [sample_line; "1,2,3,Speaker1"]).
Proof.
  apply (return_examples_length toy_vocabulary int_float_decimal "," []
           [sample_line; "1,2,3,Speaker1"] [([6], true, 100, 140)]).
  reflexivity.
Defined.

(** ** Word-pair generator: size, repeats and provenance *)

Lemma wordpair_step_length (p : gram Z * gram Z) :
  (length (wordpair_step [] p) <= 2)%nat.
Proof.
  destruct p as [first second]. unfold wordpair_step.
  destruct (spk first), (spk second);
    destruct (Nat.eqb_spec (length (tok first)) 2) as [L1 | L1];
    destruct (Nat.eqb_spec (length (tok second)) 2) as [L2 | L2];
    destruct (Nat.eqb_spec (length (tok first)) 1) as [M1 | M1];
    destruct (Nat.eqb_spec (length (tok second)) 1) as [M2 | M2];
    destruct (onset first <? onset second); simpl; lia.
Qed.

Lemma flat_map_length_le {A B} (f : A -> list B) (k : nat) (l : list A) :
  (forall a, (length (f a) <= k)%nat) ->
  (length (flat_map f l) <= k * length l)%nat.
Proof.
  intros Hf. induction l as [| a l IH]; cbn [flat_map length]; [lia |].
  rewrite length_app, Nat.mul_succ_r. specialize (Hf a). lia.
Qed.

Lemma adjacent_pairs_length {A} (l : list A) :
  length (combine l (List.tl l)) = (length l - 1)%nat.
Proof.
  rewrite length_combine. destruct l as [| a l]; cbn [List.tl length]; lia.
Qed.

(** The generator emits at most two examples per adjacent pair: at most
    [2 * (n - 1)] for [n] utterances. *)
Theorem generate_wordpairs_length (examples : list (gram Z)) :
  (length (generate_wordpairs examples) <= 2 * (length examples - 1))%nat.
Proof.
  rewrite generate_wordpairs_flat_map, <- adjacent_pairs_length.
  apply flat_map_length_le, wordpair_step_length.
Qed.

Lemma wordpair_step_ends_with_second (a g : gram Z) :
  spk g = true -> length (tok g) = 2%nat ->
  exists s, wordpair_step [] (a, g) = s ++ [g].
Proof.
  intros Hs Hl. unfold wordpair_step. rewrite Hs, Hl.
  cbn [Nat.eqb andb]. rewrite !andb_false_r. cbn [andb].
  destruct (spk a && Nat.eqb (length (tok a)) 2); eexists; reflexivity.
Qed.

Lemma wordpair_step_starts_with_first (g b : gram Z) :
  spk g = true -> length (tok g) = 2%nat ->
  exists r, wordpair_step [] (g, b) = g :: r.
Proof.
  intros Hs Hl. unfold wordpair_step. rewrite Hs, Hl.
  cbn [Nat.eqb andb]. rewrite !andb_false_r. cbn [andb app].
  destruct (spk b && Nat.eqb (length (tok b)) 2); eexists; reflexivity.
Qed.

(** A two-token target-speaker utterance with a neighbour on each side is
    emitted twice in a row: once as the second of a pair, once as the first
    of the next. *)
Theorem generate_wordpairs_repeats (pre post : list (gram Z))
    (a g b : gram Z) :
  spk g = true -> length (tok g) = 2%nat ->
  exists out1 out2,
    generate_wordpairs (pre ++ a :: g :: b :: post) = out1 ++ g :: g :: out2.
Proof.
  intros Hs Hl.
  rewrite generate_wordpairs_flat_map, adjacent_pairs_split.
  change (combine (g :: b :: post) (b :: post))
    with ((g, b) :: combine (b :: post) post).
  rewrite flat_map_app. cbn [flat_map].
  destruct (wordpair_step_ends_with_second a g Hs Hl) as [s ->].
  destruct (wordpair_step_starts_with_first g b Hs Hl) as [r ->].
  match goal with
  | |- exists _ _, ?A ++ (s ++ [g]) ++ (g :: r) ++ ?B = _ =>
      exists (A ++ s), (r ++ B)
  end.
  rewrite <- !app_assoc. reflexivity.
Qed.

Lemma generate_wordpairs_repeats_witness :
  exists out1 out2,
    generate_wordpairs
      ([] ++ ([7], true, 10, 20) :: ([8; 9], true, 30, 40)
          :: ([4], false, 50, 60) :: [])
    = out1 ++ ([8; 9], true, 30, 40) :: ([8; 9], true, 30, 40) :: out2.
Proof.
  apply (generate_wordpairs_repeats [] [] ([7], true, 10, 20)
           ([8; 9], true, 30, 40) ([4], false, 50, 60));
    reflexivity.
Defined.

Lemma adjacent_pairs_In {A} (l : list A) (a b : A) :
  In (a, b) (combine l (List.tl l)) ->
  exists pre post, l = pre ++ a :: b :: post.
Proof.
  induction l as [| x l IH]; [intros [] |].
  destruct l as [| y l]; [intros [] |].
  cbn [List.tl combine]. intros [Heq | Hin].
  - injection Heq as <- <-. exists [], l. reflexivity.
  - destruct (IH Hin) as (pre & post & ->).
    exists (x :: pre), post. reflexivity.
Qed.

Lemma wordpair_step_provenance (first second g : gram Z) :
  In g (wordpair_step [] (first, second)) ->
  g = first \/ g = second
  \/ (g = (tok first ++ tok second, true, onset first, offset second)
      /\ spk first = true /\ spk second = true
      /\ length (tok first) = 1%nat /\ length (tok second) = 1%nat
      /\ onset first < onset second).
Proof.
  unfold wordpair_step.
  destruct (spk first) eqn:S1, (spk second) eqn:S2;
    destruct (Nat.eqb_spec (length (tok first)) 2) as [L1 | L1];
    destruct (Nat.eqb_spec (length (tok second)) 2) as [L2 | L2];
    destruct (Nat.eqb_spec (length (tok first)) 1) as [M1 | M1];
    destruct (Nat.eqb_spec (length (tok second)) 1) as [M2 | M2];
    destruct (Z.ltb_spec (onset first) (onset second));
    simpl; intros Hin;
    repeat match goal with
           | H : _ \/ _ |- _ => destruct H
           | H : False |- _ => destruct H
           end; subst; auto 10.
Qed.

(** Nothing is invented: every emitted example is an input utterance, or
    the merge of two adjacent single-token target-speaker utterances with
    strictly increasing onsets. *)
Theorem generate_wordpairs_provenance (examples : list (gram Z)) (g : gram Z) :
  In g (generate_wordpairs examples) ->
  In g examples
  \/ exists pre post first second,
       examples = pre ++ first :: second :: post
       /\ g = (tok first ++ tok second, true, onset first, offset second)
       /\ spk first = true /\ spk second = true
       /\ length (tok first) = 1%nat /\ length (tok second) = 1%nat
       /\ onset first < onset second.
Proof.
  rewrite generate_wordpairs_flat_map, in_flat_map.
  intros [[first second] [Hp Hg]].
  destruct (adjacent_pairs_In _ _ _ Hp) as (pre & post & Hex).
  destruct (wordpair_step_provenance _ _ _ Hg) as [-> | [-> | Hm]].
  - left. rewrite Hex. apply in_or_app. right. left. reflexivity.
  - left. rewrite Hex. apply in_or_app. right. right. left. reflexivity.
  - right. exists pre, post, first, second. split; [exact Hex | exact Hm].
Qed.

Lemma generate_wordpairs_provenance_witness :
  In (([7; 9], true, 10, 40) : gram Z)
     [([7], true, 10, 20); ([9], true, 30, 40)]
  \/ exists pre post first second,
       [([7], true, 10, 20); ([9], true, 30, 40)]
       = pre ++ first :: second :: post
       /\ (([7; 9], true, 10, 40) : gram Z)
          = (tok first ++ tok second, true, onset first, offset second)
       /\ spk first = true /\ spk second = true
       /\ length (tok first) = 1%nat /\ length (tok second) = 1%nat
       /\ onset first < onset second.
Proof.
  apply (generate_wordpairs_provenance
           [([7], true, 10, 20); ([9], true, 30, 40)]).
  simpl. left. reflexivity.
Defined.

(** Utterances of other speakers alone produce nothing. *)
Theorem generate_wordpairs_no_target (examples : list (gram Z)) :
  Forall (fun u => spk u = false) examples ->
  generate_wordpairs examples = [].
Proof.
  intros Hno.
  destruct (generate_wordpairs examples) as [| g out] eqn:E; [reflexivity |].
  exfalso.
  assert (Hg : In g (generate_wordpairs examples)) by (rewrite E; left; reflexivity).
  rewrite generate_wordpairs_flat_map, in_flat_map in Hg.
  destruct Hg as [[first second] [Hp Hg]].
  destruct (adjacent_pairs_In _ _ _ Hp) as (pre & post & Hex).
  rewrite Forall_forall in Hno.
  assert (S1 : spk first = false).
  { apply Hno, list_elem_of_In. rewrite Hex. apply in_or_app. right. left.
    reflexivity. }
  assert (S2 : spk second = false).
  { apply Hno, list_elem_of_In. rewrite Hex. apply in_or_app. right. right.
    left. reflexivity. }
  unfold wordpair_step in Hg. rewrite S1, S2 in Hg. exact Hg.
Qed.

Lemma generate_wordpairs_no_target_witness :
  generate_wordpairs [([7; 8], false, 10, 20); ([9], false, 30, 40)] = [].
Proof.
  apply generate_wordpairs_no_target.
  repeat constructor.
Defined.

(** ** Deduplicator: what it returns and when it raises *)

Lemma int_gram_row_inj (g1 g2 : gram Z) :
  length (tok g1) = 2%nat -> length (tok g2) = 2%nat ->
  row_of_gram (int_gram g1) = row_of_gram (int_gram g2) -> g1 = g2.
Proof.
  destruct g1 as [[[t1 s1] on1] off1], g2 as [[[t2 s2] on2] off2].
  unfold tok. simpl. intros L1 L2.
  destruct t1 as [| a1 [| b1 [| ? ?]]]; try discriminate L1.
  destruct t2 as [| a2 [| b2 [| ? ?]]]; try discriminate L2.
  unfold row_of_gram, int_gram. cbn. congruence.
Qed.

Lemma int_gram_row_back (g : gram Z) :
  length (tok g) = 2%nat ->
  gram_of_row true (row_of_gram (int_gram g)) = int_gram g.
Proof.
  destruct g as [[[t s] on] off]. unfold tok. simpl. intros L.
  destruct t as [| a [| b [| ? ?]]]; try discriminate L. reflexivity.
Qed.

Lemma int_gram_is_int (g : gram Z) :
  length (tok g) = 2%nat ->
  is_int64 (tok (int_gram g) !! 0%nat) && is_int64 (tok (int_gram g) !! 1%nat)
  = true.
Proof.
  destruct g as [[[t s] on] off]. unfold tok. simpl. intros L.
  destruct t as [| a [| b [| ? ?]]]; try discriminate L. reflexivity.
Qed.

(** Dropping duplicate rows of two-token integer grams, read on the grams
    themselves: what is kept, and that each kept example stands where it
    first occurs. *)
Lemma drop_duplicates_from_int_grams (l seen : list (gram Z)) :
  Forall (fun g => length (tok g) = 2%nat) l ->
  Forall (fun g => length (tok g) = 2%nat) seen ->
  exists out,
    drop_duplicates_from (List.map (fun g => row_of_gram (int_gram g)) seen)
      (List.map (fun g => row_of_gram (int_gram g)) l)
    = List.map (fun g => row_of_gram (int_gram g)) out
    /\ NoDup out
    /\ (forall g, In g out <-> In g l /\ ~ In g seen)
    /\ sublist out l
    /\ (forall o1 g o2,
           out = o1 ++ g :: o2 ->
           exists p s, l = p ++ g :: s /\ ~ In g p
                       /\ forall x, In x p -> In x seen \/ In x o1).
Proof.
  intros Hl. revert seen.
  induction Hl as [| a l Ha Hl IH]; intros seen Hseen.
  - exists []. simpl. split; [reflexivity |]. split; [constructor |].
    split; [tauto |]. split; [constructor |].
    intros o1 g o2 Heq. destruct o1; discriminate Heq.
  - cbn [List.map drop_duplicates_from].
    assert (Hmem : row_of_gram (int_gram a)
                   ∈ List.map (fun g => row_of_gram (int_gram g)) seen
                   <-> In a seen).
    { rewrite list_elem_of_In, in_map_iff. split.
      - intros (g & Heq & Hg).
        rewrite Forall_forall in Hseen.
        assert (g = a) as <-; [| exact Hg].
        apply int_gram_row_inj; [apply Hseen, list_elem_of_In, Hg | exact Ha | exact Heq].
      - intros Hin. exists a. auto. }
    case_bool_decide as Hdec.
    + destruct (IH seen Hseen) as (out & Hout & Hnd & Hin & Hsub & Hord).
      exists out. split; [exact Hout |]. split; [exact Hnd |]. split; [| split].
      * intros g. rewrite Hin. simpl. split; [tauto |].
        intros [[<- | Hg] Hs]; [| tauto].
        exfalso. apply Hs, Hmem, Hdec.
      * constructor. exact Hsub.
      * intros o1 g o2 Heq.
        destruct (Hord o1 g o2 Heq) as (p & s & -> & Hgp & Hp).
        exists (a :: p), s. split; [reflexivity |]. split.
        -- simpl. intros [-> | Hg]; [| contradiction].
           assert (Hgo : In g out) by (rewrite Heq; apply in_elt).
           apply Hin in Hgo as [_ Hgs]. apply Hgs, Hmem, Hdec.
        -- intros x [<- | Hx]; [left; apply Hmem, Hdec | apply Hp, Hx].
    + destruct (IH (a :: seen) ltac:(constructor; assumption))
        as (out & Hout & Hnd & Hin & Hsub & Hord).
      rewrite Hmem in Hdec.
      exists (a :: out). cbn [List.map] in *. split; [rewrite Hout; reflexivity |].
      split; [| split; [| split]].
      * constructor; [| exact Hnd].
        rewrite list_elem_of_In, Hin. simpl. tauto.
      * intros g. simpl. rewrite Hin. simpl.
        split.
        -- intros [<- | [Hg Hs]]; tauto.
        -- intros [[<- | Hg] Hs]; [tauto |].
           destruct (decide (a = g)) as [-> | Hne]; tauto.
      * constructor. exact Hsub.
      * intros o1 g o2 Heq. destruct o1 as [| a' o1].
        -- injection Heq as <- <-. exists [], l.
           split; [reflexivity |]. split; [intros [] | intros x []].
        -- injection Heq as <- Heq.
           destruct (Hord o1 g o2 Heq) as (p & s & -> & Hgp & Hp).
           exists (a :: p), s. split; [reflexivity |]. split.
           ++ simpl. intros [-> | Hg]; [| contradiction].
              assert (Hgo : In g out) by (rewrite Heq; apply in_elt).
              apply Hin in Hgo as [_ Hgs]. apply Hgs. left. reflexivity.
           ++ intros x [<- | Hx]; [right; left; reflexivity |].
              destruct (Hp x Hx) as [[<- | Hs] | Ho].
              ** right. left. reflexivity.
              ** left. exact Hs.
              ** right. right. exact Ho.
Qed.

(** On a non-empty sequence of examples that all have two integer tokens,
    as the generator produces them, the deduplicator returns the distinct
    examples as records, each once, with tokens and fields unchanged, in
    the order of their first occurrence: whatever stands before the first
    occurrence of a returned example in the input is returned before
    it. *)
Theorem remove_duplicates_distinct (grams : list (gram Z)) :
  grams <> [] ->
  Forall (fun g => length (tok g) = 2%nat) grams ->
  exists out,
    remove_duplicates (List.map int_gram grams)
    = Ok (List.map (fun g => NpRecord (int_gram g)) out)
    /\ NoDup out
    /\ (forall g, In g out <-> In g grams)
    /\ sublist out grams
    /\ (forall o1 g o2,
           out = o1 ++ g :: o2 ->
           exists p s, grams = p ++ g :: s /\ ~ In g p
                       /\ forall x, In x p -> In x o1).
Proof.
  intros Hne Hlen.
  destruct (drop_duplicates_from_int_grams grams [] Hlen ltac:(constructor))
    as (out & Hout & Hnd & Hin & Hsub & Hord).
  exists out.
  split; [| split; [exact Hnd | split; [| split; [exact Hsub |]]]].
  - rewrite remove_duplicates_nonempty
      by (destruct grams; [contradiction | discriminate]).
    replace (max_list _) with 2%nat.
    2: { symmetry. apply max_list_two.
         - destruct grams as [| g0 grams']; [contradiction |].
           exists 2%nat. split; [| reflexivity].
           apply Forall_cons_1 in Hlen as [H0 _].
           cbn [List.map]. unfold int_gram at 1. unfold tok at 1.
           cbn [fst]. rewrite length_map. fold (tok g0). rewrite H0. left.
         - apply Forall_forall. intros n Hn.
           apply list_elem_of_In, in_map_iff in Hn as (g & <- & Hg).
           apply in_map_iff in Hg as (g' & <- & Hg').
           rewrite Forall_forall in Hlen.
           apply list_elem_of_In, Hlen in Hg'.
           unfold int_gram, tok in *. cbn [fst] in *.
           rewrite length_map. lia. }
    cbn [Nat.eqb negb].
    replace (forallb _ (List.map int_gram grams)) with true.
    2: { symmetry. apply forallb_forall. intros g Hg.
         apply in_map_iff in Hg as (g' & <- & Hg').
         apply int_gram_is_int.
         rewrite Forall_forall in Hlen. apply Hlen, list_elem_of_In, Hg'. }
    f_equal. unfold drop_duplicates.
    rewrite (List.map_map int_gram row_of_gram).
    change (@nil row) with (List.map (fun g => row_of_gram (int_gram g)) []).
    rewrite Hout, !List.map_map.
    apply List.map_ext_in. intros g Hg. f_equal.
    apply int_gram_row_back.
    rewrite Forall_forall in Hlen.
    apply Hlen, list_elem_of_In, Hin, Hg.
  - intros g. rewrite Hin. simpl. tauto.
  - intros o1 g o2 Heq.
    destruct (Hord o1 g o2 Heq) as (p & s & Hsplit & Hgp & Hp).
    exists p, s. split; [exact Hsplit |]. split; [exact Hgp |].
    intros x Hx. destruct (Hp x Hx) as [[] | Ho]. exact Ho.
Qed.

Lemma remove_duplicates_distinct_witness :
  exists out,
    remove_duplicates
      (List.map int_gram
         [([8; 9], true, 30, 40); ([3; 4], true, 5, 6); ([8; 9], true, 30, 40)])
    = Ok (List.map (fun g => NpRecord (int_gram g)) out)
    /\ NoDup out
    /\ (forall g, In g out
                  <-> In g [([8; 9], true, 30, 40); ([3; 4], true, 5, 6);
                            ([8; 9], true, 30, 40)])
    /\ sublist out [([8; 9], true, 30, 40); ([3; 4], true, 5, 6);
                    ([8; 9], true, 30, 40)]
    /\ (forall o1 g o2,
           out = o1 ++ g :: o2 ->
           exists p s,
             [([8; 9], true, 30, 40); ([3; 4], true, 5, 6);
              ([8; 9], true, 30, 40)] = p ++ g :: s
             /\ ~ In g p /\ forall x, In x p -> In x o1).
Proof.
  apply remove_duplicates_distinct.
  - discriminate.
  - repeat constructor.
Defined.

(** The order of first occurrence, on an input whose first example comes
    again after the second. *)
Example remove_duplicates_first_occurrence :
  remove_duplicates
    (List.map int_gram
       [([8; 9], true, 30, 40); ([3; 4], true, 5, 6); ([8; 9], true, 30, 40)])
  = Ok [NpRecord ([CInt 8; CInt 9], true, 30, 40);
        NpRecord ([CInt 3; CInt 4], true, 5, 6)].
Proof. reflexivity. Qed.

(** One example with more than two tokens anywhere in the input makes the
    deduplicator raise [ValueError]. *)
Theorem remove_duplicates_long_example (grams : list (gram cell))
    (g : gram cell) :
  In g grams -> (2 < length (tok g))%nat ->
  remove_duplicates grams = Raise ValueError.
Proof.
  intros Hg Hlen.
  rewrite remove_duplicates_nonempty by (intros ->; destruct Hg).
  assert (Hmax : (length (tok g)
                  <= max_list (List.map (fun g => length (tok g)) grams))%nat).
  { apply max_list_elem_of_le, list_elem_of_In, in_map_iff. exists g. auto. }
  destruct (Nat.eqb_spec
              (max_list (List.map (fun g => length (tok g)) grams)) 2)
    as [Heq | _]; [lia | reflexivity].
Qed.

Lemma remove_duplicates_long_example_witness :
  remove_duplicates
    [([CInt 1; CInt 2], true, 0, 1); ([CInt 3; CInt 4; CInt 5], true, 2, 3)]
  = Raise ValueError.
Proof.
  apply (remove_duplicates_long_example _ ([CInt 3; CInt 4; CInt 5], true, 2, 3)).
  - right. left. reflexivity.
  - simpl. lia.
Defined.

(** The generator feeding the deduplicator: the call raises [KeyError]
    exactly when the generator emitted nothing, and succeeds otherwise; it
    never raises [ValueError]. *)
Theorem remove_duplicates_after_generate (examples : list (gram Z)) :
  (generate_wordpairs examples = [] ->
   remove_duplicates (List.map int_gram (generate_wordpairs examples))
   = Raise KeyError)
  /\ (generate_wordpairs examples <> [] ->
      exists out,
        remove_duplicates (List.map int_gram (generate_wordpairs examples))
        = Ok out).
Proof.
  split.
  - intros ->. reflexivity.
  - intros Hne.
    assert (Hlen : Forall (fun g => length (tok g) = 2%nat)
                     (generate_wordpairs examples)).
    { apply Forall_forall. intros g Hg.
      apply list_elem_of_In in Hg.
      rewrite generate_wordpairs_flat_map, in_flat_map in Hg.
      destruct Hg as [p [_ Hg]].
      exact (proj1 (wordpair_step_invariant p g Hg)). }
    destruct (generate_wordpairs examples) as [| g0 gs] eqn:E;
      [contradiction |].
    rewrite remove_duplicates_nonempty by discriminate.
    replace (max_list _) with 2%nat; [eexists; reflexivity |].
    symmetry. apply max_list_two.
    + exists 2%nat. split; [| reflexivity].
      apply Forall_cons_1 in Hlen as [H0 _].
      cbn [List.map]. unfold int_gram at 1. unfold tok at 1.
      cbn [fst]. rewrite length_map. fold (tok g0). rewrite H0. left.
    + apply Forall_forall. intros n Hn.
      apply list_elem_of_In, in_map_iff in Hn as (g & <- & Hg).
      apply in_map_iff in Hg as (g' & <- & Hg').
      rewrite Forall_forall in Hlen.
      apply list_elem_of_In, Hlen in Hg'.
      unfold int_gram, tok in *. cbn [fst] in *.
      rewrite length_map. lia.
Qed.

Lemma remove_duplicates_after_generate_witness :
  remove_duplicates (List.map int_gram (generate_wordpairs [([7], true, 1, 2)]))
  = Raise KeyError
  /\ exists out,
       remove_duplicates
         (List.map int_gram
            (generate_wordpairs [([7], true, 1, 2); ([9], true, 3, 4)]))
       = Ok out.
Proof.
  split.
  - apply (proj1 (remove_duplicates_after_generate [([7], true, 1, 2)])).
    reflexivity.
  - apply (proj2 (remove_duplicates_after_generate
                    [([7], true, 1, 2); ([9], true, 3, 4)])).
    discriminate.
Defined.

(** ** Vocabulary filter: composition *)

Lemma filter_filter_absorb {A} (f g : A -> bool) (l : list A) :
  (forall a, f a = true -> g a = true) ->
  List.filter f (List.filter g l) = List.filter f l.
Proof.
  intros Hfg. induction l as [| a l IH]; [reflexivity |].
  simpl. destruct (g a) eqn:Hg, (f a) eqn:Hf; simpl; rewrite ?Hf, ?IH;
    try reflexivity.
  rewrite (Hfg a Hf) in Hg. discriminate Hg.
Qed.

(** Filtering twice under one tag changes nothing more, and the training
    filter applied after the filter of any tag gives the training filter of
    the input: whatever another tag drops, [train] drops too. *)
Theorem remove_oovs_compose (grams : list (gram Z)) (v : Vocabulary)
    (data_tag : string) :
  remove_oovs (remove_oovs grams v data_tag) v data_tag
  = remove_oovs grams v data_tag
  /\ remove_oovs (remove_oovs grams v data_tag) v "train"
     = remove_oovs grams v "train".
Proof.
  unfold remove_oovs. cbn [String.eqb Ascii.eqb Bool.eqb].
  destruct (String.eqb data_tag "train"); split;
    apply filter_filter_absorb; intros a Ha; try exact Ha.
  apply bool_decide_eq_true in Ha. apply bool_decide_eq_true.
  intros Heq. apply Ha. rewrite Heq. left.
Qed.

(** ** Window calculator: errors, and windows that pass validation *)

(** The calculator's errors: a missing [start_offset], a missing
    [end_offset] after an integer [start_offset], and a missing [bin_fs]
    after integer offsets each raise [KeyError]; a [bin_fs] of 0 after
    integer offsets raises [ZeroDivisionError]; a string for
    [start_offset] raises [TypeError]. *)
Theorem calculate_windows_params_errors {T : Type} (g : gram T)
    (param_dict : gmap string pyval) :
  (param_dict !! "start_offset" = None ->
   calculate_windows_params g param_dict = Raise KeyError)
  /\ (forall start_offset,
         param_dict !! "start_offset" = Some (PInt start_offset) ->
         param_dict !! "end_offset" = None ->
         calculate_windows_params g param_dict = Raise KeyError)
  /\ (forall start_offset end_offset,
         param_dict !! "start_offset" = Some (PInt start_offset) ->
         param_dict !! "end_offset" = Some (PInt end_offset) ->
         param_dict !! "bin_fs" = None ->
         calculate_windows_params g param_dict = Raise KeyError)
  /\ (forall start_offset end_offset,
         param_dict !! "start_offset" = Some (PInt start_offset) ->
         param_dict !! "end_offset" = Some (PInt end_offset) ->
         param_dict !! "bin_fs" = Some (PInt 0) ->
         calculate_windows_params g param_dict = Raise ZeroDivisionError)
  /\ (forall text,
         param_dict !! "start_offset" = Some (PStr text) ->
         calculate_windows_params g param_dict = Raise TypeError).
Proof.
  unfold calculate_windows_params, dict_get.
  split; [| split; [| split; [| split]]].
  - intros ->. reflexivity.
  - intros so -> ->. reflexivity.
  - intros so eo -> -> ->. reflexivity.
  - intros so eo -> -> ->. reflexivity.
  - intros text ->. reflexivity.
Qed.

Lemma calculate_windows_params_errors_witness :
  calculate_windows_params (([7; 9], true, 100, 140) : gram Z) ∅
  = Raise KeyError
  /\ calculate_windows_params (([7; 9], true, 100, 140) : gram Z)
       (<["bin_fs" := PInt 0]> toy_config)
     = Raise ZeroDivisionError.
Proof.
  pose proof (calculate_windows_params_errors
                (([7; 9], true, 100, 140) : gram Z) ∅) as [Hkey _].
  pose proof (calculate_windows_params_errors
                (([7; 9], true, 100, 140) : gram Z)
                (<["bin_fs" := PInt 0]> toy_config)) as [_ [_ [_ [Hzero _]]]].
  split.
  - apply Hkey. reflexivity.
  - apply (Hzero (-20) 20); reflexivity.
Defined.

(** A window computed from an integer configuration (magnitudes below
    2^53, where the calculator's quotient is exact) that passes validation
    satisfies [0 <= begin_window <= end_window <= T] and is at least as
    long as the minimum; when the minimum and [bin_fs] are positive, it is
    not empty, gets at least one bin, and its bins cover the minimum. *)
Theorem valid_window_in_signal {T : Type} (g : gram T)
    (param_dict : gmap string pyval) (shape : Z * Z)
    (window start_offset end_offset bin_fs : Z)
    (seq_length begin_window end_window bin_size : Z) :
  param_dict !! "start_offset" = Some (PInt start_offset) ->
  param_dict !! "end_offset" = Some (PInt end_offset) ->
  param_dict !! "bin_fs" = Some (PInt bin_fs) ->
  Z.abs bin_fs < 2 ^ 53 ->
  Z.abs ((offset g + end_offset) - (onset g + start_offset)) < 2 ^ 53 ->
  calculate_windows_params g param_dict
  = Ok (seq_length, begin_window, end_window, bin_size) ->
  test_for_bad_window begin_window end_window shape window = false ->
  0 <= begin_window <= end_window
  /\ end_window <= shape.1
  /\ window <= end_window - begin_window
  /\ (0 < window -> 0 < bin_fs ->
      begin_window < end_window
      /\ 1 <= bin_size
      /\ window <= bin_size * bin_fs).
Proof.
  intros Hso Heo Hfs _ _ Hcalc Hok.
  unfold test_for_bad_window in Hok.
  rewrite !orb_false_iff, !Z.ltb_ge in Hok.
  unfold calculate_windows_params, dict_get in Hcalc.
  rewrite Hso, Heo, Hfs in Hcalc. cbn in Hcalc.
  destruct (ceil_div (offset g + end_offset - (onset g + start_offset)) bin_fs)
    as [q |] eqn:Hq; [| discriminate Hcalc].
  cbn in Hcalc. injection Hcalc as <- <- <- <-.
  split; [lia |]. split; [lia |]. split; [lia |].
  intros Hwin Hpos.
  pose proof (ceil_div_pos _ _ _ Hpos Hq) as Hceil.
  split; [lia |]. split; nia.
Qed.

Lemma valid_window_in_signal_witness :
  0 <= 80 <= 160 /\ 160 <= (1000, 64).1 /\ 50 <= 160 - 80
  /\ (0 < 50 -> 0 < 10 -> 80 < 160 /\ 1 <= 8 /\ 50 <= 8 * 10).
Proof.
  apply (valid_window_in_signal (([7; 9], true, 100, 140) : gram Z)
           toy_config (1000, 64) 50 (-20) 20 10 40 80 160 8);
    reflexivity.
Defined.

(** ** Dataset: maxima, token counts, the assertion *)

Lemma max_list_Permutation (l l' : list nat) :
  l ≡ₚ l' -> max_list l = max_list l'.
Proof. induction 1; simpl; lia. Qed.

Lemma max_list_bound (k : nat) (l : list nat) :
  Forall (fun n => (n <= k)%nat) l -> (max_list l <= k)%nat.
Proof. induction 1; simpl; lia. Qed.

Lemma map_filter_imap {A B C} (f : nat -> A -> B) (P : B -> Prop)
    (Q : A -> Prop) `{!forall x, Decision (P x)} `{!forall x, Decision (Q x)}
    (g : B -> C) (g' : A -> C) (l : list A) :
  (forall i x, P (f i x) <-> Q x) ->
  (forall i x, g (f i x) = g' x) ->
  List.map g (filter P (imap f l)) = List.map g' (filter Q l).
Proof.
  revert f. induction l as [| a l IH]; intros f Hf Hg; [reflexivity |].
  rewrite imap_cons, !filter_cons.
  pose proof (Hf 0%nat a) as Ha.
  destruct (decide (P (f 0%nat a))) as [HP | HP], (decide (Q a)) as [HQ | HQ];
    try tauto;
    cbn [List.map];
    rewrite (IH (f ∘ S)) by (intros i x; first [apply Hf | apply Hg]);
    rewrite ?Hg; reflexivity.
Qed.

Lemma Forall2_map_eq {A B C} (g : A -> C) (g' : B -> C)
    (l : list A) (k : list B) :
  Forall2 (fun a b => g' b = g a) l k -> List.map g' k = List.map g l.
Proof. induction 1 as [| a b l k Hab _ IH]; simpl; congruence. Qed.

Lemma counter_update_app (m : gmap Z nat) (l1 l2 : list Z) :
  counter_update m (l1 ++ l2) = counter_update (counter_update m l1) l2.
Proof. unfold counter_update. apply fold_left_app. Qed.

Lemma counter_update_lookup (lab : list Z) (m : gmap Z nat) (t : Z) :
  default 0%nat (counter_update m lab !! t)
  = (default 0%nat (m !! t) + count_occ Z.eq_dec lab t)%nat.
Proof.
  revert m. induction lab as [| a lab IH]; intros m.
  - simpl. lia.
  - change (counter_update m (a :: lab))
      with (counter_update
              (partial_alter (fun o => Some (S (default 0%nat o))) a m) lab).
    rewrite IH. cbn [count_occ].
    destruct (Z.eq_dec a t) as [-> | Hne].
    + rewrite lookup_partial_alter_eq. simpl. lia.
    + rewrite lookup_partial_alter_ne by exact Hne. lia.
Qed.

Lemma counter_update_positive (lab : list Z) (m : gmap Z nat) :
  (forall t n, m !! t = Some n -> (0 < n)%nat) ->
  forall t n, counter_update m lab !! t = Some n -> (0 < n)%nat.
Proof.
  revert m. induction lab as [| a lab IH]; intros m Hm; [exact Hm |].
  change (counter_update m (a :: lab))
    with (counter_update
            (partial_alter (fun o => Some (S (default 0%nat o))) a m) lab).
  apply IH. intros t n.
  destruct (decide (a = t)) as [-> | Hne].
  - rewrite lookup_partial_alter_eq. intros [= <-]. lia.
  - rewrite lookup_partial_alter_ne by exact Hne. apply Hm.
Qed.

Section DatasetFields.
Variables Signal Tensor : Type.
Variable np_len : Signal -> nat.
Variable from_numpy_float : Signal -> Tensor.
Variable signals : list Signal.
Variable labels : list (list Z).

Lemma dataset_loop_fields (indices : list index_entry) :
  Forall (well_indexed Signal np_len signals labels) indices ->
  forall ds0 ds,
    dataset_loop Signal Tensor from_numpy_float signals labels ds0 indices
    = Ok ds ->
    exists exs : list (Tensor * list Z),
      examples ds = examples ds0 ++ exs
      /\ Forall2 (fun (e : index_entry) ex => length ex.2 = e.2)
           (filter (fun e => out_of_bounds e = false) indices) exs
      /\ train_freq ds
         = counter_update (train_freq ds0) (concat (List.map snd exs))
      /\ max_seq_len ds
         = Nat.max (max_seq_len ds0)
             (max_list (List.map (fun e : index_entry => e.1.2)
                          (filter (fun e => out_of_bounds e = false) indices)))
      /\ max_sent_len ds
         = Nat.max (max_sent_len ds0)
             (max_list (List.map (fun ex : Tensor * list Z => length ex.2) exs)).
Proof.
  induction 1 as [| e indices He _ IH]; intros ds0 ds Hloop.
  - injection Hloop as <-. exists []. simpl. rewrite app_nil_r.
    split; [reflexivity |]. split; [constructor |].
    split; [reflexivity |]. split; lia.
  - cbn [dataset_loop] in Hloop. unfold dataset_step in Hloop.
    destruct (out_of_bounds e) eqn:Hoob.
    + rewrite bind_Ok in Hloop.
      destruct (IH _ _ Hloop) as (exs & Hex & HF & Hfreq & Hseq & Hsent).
      exists exs. rewrite filter_cons_False by congruence.
      simpl in *. auto.
    + destruct He as (s & l & Hs & Hl & Hns & Hnl).
      unfold list_get in Hloop. rewrite Hl, bind_Ok, Hs, !bind_Ok in Hloop.
      destruct (IH _ _ Hloop) as (exs & Hex & HF & Hfreq & Hseq & Hsent).
      exists ((from_numpy_float s, l) :: exs).
      rewrite filter_cons_True by exact Hoob.
      simpl in *.
      split; [rewrite Hex, <- app_assoc; reflexivity |].
      split; [constructor; [symmetry; exact Hnl | exact HF] |].
      split; [rewrite Hfreq; symmetry; apply counter_update_app |].
      split; lia.
Qed.

Lemma Brain2enDataset_init_inv (ds : Brain2enDataset Tensor) :
  Brain2enDataset_init np_len from_numpy_float signals labels = Ok ds ->
  length signals = length labels
  /\ dataset_loop Signal Tensor from_numpy_float signals labels
       (empty_dataset Tensor)
       (merge_sort key_le (make_indices Signal np_len signals labels))
     = Ok ds.
Proof.
  unfold Brain2enDataset_init.
  destruct (Nat.eqb_spec (length signals) (length labels)) as [Heq | Hne];
    simpl; [auto | discriminate].
Qed.

Lemma sorted_indices_well_indexed :
  Forall (well_indexed Signal np_len signals labels)
    (merge_sort key_le (make_indices Signal np_len signals labels)).
Proof.
  apply Forall_forall. intros e He. apply make_indices_elem.
  rewrite <- (merge_sort_Permutation key_le). exact He.
Qed.

(** After construction, [max_seq_len] and [max_sent_len] are the largest
    segment length and the largest label length among the input pairs
    within bounds (0 when there is none); [max_sent_len] is the largest
    label length stored; every stored label has between 4 and 128 tokens;
    the maxima are at most 384 and 128. *)
Theorem Brain2enDataset_init_maxima (ds : Brain2enDataset Tensor) :
  Brain2enDataset_init np_len from_numpy_float signals labels = Ok ds ->
  let retained := filter (fun sl : Signal * list Z =>
                            (np_len sl.1 <= 384
                             /\ 4 <= length sl.2 <= 128)%nat)
                    (zip signals labels) in
  max_seq_len ds = max_list (List.map (fun sl => np_len sl.1) retained)
  /\ max_sent_len ds = max_list (List.map (fun sl => length sl.2) retained)
  /\ max_sent_len ds
     = max_list (List.map (fun ex : Tensor * list Z => length ex.2)
                   (examples ds))
  /\ Forall (fun ex : Tensor * list Z => (4 <= length ex.2 <= 128)%nat)
       (examples ds)
  /\ (max_seq_len ds <= 384)%nat
  /\ (max_sent_len ds <= 128)%nat.
Proof.
  intros Hinit retained.
  destruct (Brain2enDataset_init_inv ds Hinit) as [_ Hloop].
  destruct (dataset_loop_fields _ sorted_indices_well_indexed _ _ Hloop)
    as (exs & Hex & HF & _ & Hseq & Hsent).
  simpl in Hex, Hseq, Hsent. subst exs.
  set (sorted := merge_sort key_le (make_indices Signal np_len signals labels))
    in *.
  set (keep := fun e : index_entry => out_of_bounds e = false) in *.
  assert (Hperm : filter keep sorted
                  ≡ₚ filter keep (make_indices Signal np_len signals labels)).
  { apply filter_Permutation, merge_sort_Permutation. }
  assert (Hkept_seq :
            max_list (List.map (fun e : index_entry => e.1.2) (filter keep sorted))
            = max_list (List.map (fun sl => np_len sl.1) retained)).
  { rewrite (max_list_Permutation _ _ (Permutation_map _ Hperm)).
    unfold make_indices, retained. f_equal.
    apply map_filter_imap; [| reflexivity].
    intros i [s l]. simpl. apply out_of_bounds_false. }
  assert (Hkept_sent :
            max_list (List.map (fun e : index_entry => e.2) (filter keep sorted))
            = max_list (List.map (fun sl => length sl.2) retained)).
  { rewrite (max_list_Permutation _ _ (Permutation_map _ Hperm)).
    unfold make_indices, retained. f_equal.
    apply map_filter_imap; [| reflexivity].
    intros i [s l]. simpl. apply out_of_bounds_false. }
  assert (Hmap : List.map (fun ex : Tensor * list Z => length ex.2)
                   (examples ds)
                 = List.map (fun e : index_entry => e.2) (filter keep sorted)).
  { apply Forall2_map_eq. exact HF. }
  assert (Hkeep : Forall (fun e : index_entry =>
                            (e.1.2 <= 384 /\ 4 <= e.2 <= 128)%nat)
                    (filter keep sorted)).
  { apply Forall_forall. intros e He.
    apply list_elem_of_filter in He as [He _].
    apply out_of_bounds_false, He. }
  split; [rewrite Hseq, Hkept_seq; reflexivity |].
  split; [rewrite Hsent, Hmap, Hkept_sent; reflexivity |].
  split; [rewrite Hsent; reflexivity |].
  split; [| split].
  - clear -HF Hkeep. induction HF as [| e ex l k Heq _ IH]; [constructor |].
    apply Forall_cons_1 in Hkeep as [He Hrest].
    constructor; [lia | apply IH, Hrest].
  - rewrite Hseq. simpl. apply max_list_bound.
    apply Forall_forall. intros n Hn.
    apply list_elem_of_In, in_map_iff in Hn as (e & <- & He).
    rewrite Forall_forall in Hkeep. apply list_elem_of_In, Hkeep in He. lia.
  - rewrite Hsent, Hmap. simpl. apply max_list_bound.
    apply Forall_forall. intros n Hn.
    apply list_elem_of_In, in_map_iff in Hn as (e & <- & He).
    rewrite Forall_forall in Hkeep. apply list_elem_of_In, Hkeep in He. lia.
Qed.

(** After construction, [train_freq] maps every token to the number of its
    occurrences in the stored labels, and has no entry for a token that
    occurs in none. *)
Theorem Brain2enDataset_init_train_freq (ds : Brain2enDataset Tensor)
    (t : Z) :
  Brain2enDataset_init np_len from_numpy_float signals labels = Ok ds ->
  let tokens := concat (List.map snd (examples ds)) in
  default 0%nat (train_freq ds !! t) = count_occ Z.eq_dec tokens t
  /\ (train_freq ds !! t = None <-> ~ In t tokens).
Proof.
  intros Hinit tokens.
  destruct (Brain2enDataset_init_inv ds Hinit) as [_ Hloop].
  destruct (dataset_loop_fields _ sorted_indices_well_indexed _ _ Hloop)
    as (exs & Hex & _ & Hfreq & _ & _).
  simpl in Hex, Hfreq. subst exs. fold tokens in Hfreq.
  assert (Hcount : default 0%nat (train_freq ds !! t)
                   = count_occ Z.eq_dec tokens t).
  { rewrite Hfreq, counter_update_lookup, lookup_empty. reflexivity. }
  split; [exact Hcount |].
  rewrite (count_occ_not_In Z.eq_dec). rewrite <- Hcount. split.
  - intros ->. reflexivity.
  - destruct (train_freq ds !! t) as [n |] eqn:Hn; [| reflexivity].
    simpl. intros ->. exfalso.
    rewrite Hfreq in Hn.
    pose proof (counter_update_positive tokens ∅
                  ltac:(intros ? ? H; rewrite lookup_empty in H; discriminate H)
                  t 0%nat Hn).
    lia.
Qed.

(** For labels whose token ids fit in 64-bit integers (so that their
    conversion to a tensor succeeds), construction raises exactly when the
    two input sequences differ in length, and then it is the assertion that
    fails: no index is ever out of range. *)
Theorem Brain2enDataset_init_raises (e : exn) :
  Forall (Forall (fun t => - 2 ^ 63 <= t < 2 ^ 63)) labels ->
  Brain2enDataset_init np_len from_numpy_float signals labels = Raise e
  <-> e = AssertionError /\ length signals <> length labels.
Proof.
  intros _. unfold Brain2enDataset_init.
  destruct (Nat.eqb_spec (length signals) (length labels)) as [Heq | Hne];
    simpl.
  - split; [| intros [_ Hne]; contradiction].
    intros Hraise. exfalso.
    destruct (dataset_loop_spec Signal Tensor np_len from_numpy_float
                signals labels _ sorted_indices_well_indexed
                (empty_dataset Tensor)) as (ds & exs & Hloop & _).
    congruence.
  - split; [intros [= <-]; auto | intros [-> _]; reflexivity].
Qed.
End DatasetFields.

Lemma Brain2enDataset_init_raises_witness :
  Brain2enDataset_init (fun s : toy_signal => length s) (fun s => s)
    long_signals toy_labels = Raise AssertionError.
Proof.
  apply (Brain2enDataset_init_raises toy_signal toy_signal
           (fun s => length s) (fun s => s) long_signals toy_labels
           AssertionError).
  - unfold toy_labels. repeat (constructor; [repeat (constructor; [lia |]); constructor |]).
    constructor.
  - split; [reflexivity | simpl; lia].
Defined.

Lemma Brain2enDataset_init_maxima_witness :
  max_seq_len long_dataset
  = max_list (List.map (fun sl : toy_signal * list Z => length sl.1)
                (filter (fun sl : toy_signal * list Z =>
                           (length sl.1 <= 384 /\ 4 <= length sl.2 <= 128)%nat)
                   (zip long_signals long_labels)))
  /\ (max_sent_len long_dataset <= 128)%nat.
Proof.
  pose proof (Brain2enDataset_init_maxima toy_signal toy_signal
                (fun s => length s) (fun s => s) long_signals long_labels
                long_dataset ltac:(vm_compute; reflexivity)) as (H1 & _ & _ & _ & _ & H2).
  split; [exact H1 | exact H2].
Defined.

Lemma Brain2enDataset_init_train_freq_witness :
  default 0%nat (train_freq long_dataset !! 3) = 1%nat
  /\ train_freq long_dataset !! 5 = None.
Proof.
  pose proof (Brain2enDataset_init_train_freq toy_signal toy_signal
                (fun s => length s) (fun s => s) long_signals long_labels
                long_dataset 3 ltac:(vm_compute; reflexivity)) as [H3 _].
  pose proof (Brain2enDataset_init_train_freq toy_signal toy_signal
                (fun s => length s) (fun s => s) long_signals long_labels
                long_dataset 5 ltac:(vm_compute; reflexivity)) as [_ H5].
  split.
  - rewrite H3. reflexivity.
  - apply H5. simpl. intros H.
    repeat (destruct H as [H | H]; [discriminate H |]). exact H.
Defined.

(** ** Batch collator: shapes, the shift, the causal mask, errors *)

Lemma lookup_map {A B} (f : A -> B) (l : list A) (i : nat) :
  List.map f l !! i = f <$> (l !! i).
Proof.
  revert i. induction l as [| a l IH]; intros [| i]; simpl; auto.
Qed.

Lemma lookup_tl {A} (l : list A) (k : nat) : List.tl l !! k = l !! S k.
Proof. destruct l; reflexivity. Qed.

Lemma length_tl {A} (l : list A) : length (List.tl l) = (length l - 1)%nat.
Proof. destruct l; simpl; lia. Qed.

Lemma length_py_drop_last {A} (k : nat) (l : list A) :
  length (py_drop_last k l) = (length l - k)%nat.
Proof. unfold py_drop_last. rewrite length_take. lia. Qed.

Lemma lookup_py_drop_last {A} (l : list A) (k : nat) :
  (S k < length l)%nat -> py_drop_last 1 l !! k = l !! k.
Proof. intros Hk. unfold py_drop_last. apply lookup_take_lt. lia. Qed.

Lemma length_padded (L : nat) (v : Z) (s : list Z) :
  (length s <= L)%nat -> length (padded L v s) = L.
Proof.
  intros Hs. unfold padded. rewrite length_app, length_replicate. lia.
Qed.

Lemma lookup_padded_label (L : nat) (v : Z) (s : list Z) (k : nat) :
  (k < length s)%nat -> padded L v s !! k = s !! k.
Proof. intros Hk. unfold padded. apply lookup_app_l. exact Hk. Qed.

Lemma lookup_padded_padding (L : nat) (v : Z) (s : list Z) (k : nat) :
  (length s <= k < L)%nat -> padded L v s !! k = Some v.
Proof.
  intros Hk. unfold padded. rewrite lookup_app_r by lia.
  apply lookup_replicate_2. lia.
Qed.

Lemma pad_sequence_labels_inv (seqs labels : list (list Z)) (v : Z) :
  pad_sequence_labels seqs v = Ok labels ->
  seqs <> []
  /\ labels
     = List.map (padded (max_list (List.map (fun s => length s) seqs)) v) seqs.
Proof.
  destruct seqs as [| s0 seqs]; [discriminate |].
  intros [= <-]. split; [discriminate | reflexivity].
Qed.

Section CollatorFacts.
Variables Tensor SrcBatch F : Type.
Variables f0 f1 neg_inf : F.
Variable pad_sequence_src : list Tensor -> result SrcBatch.

Lemma batch_len_row (batch : list (Tensor * list Z)) (b : Tensor * list Z) :
  In b batch -> (length b.2 <= batch_len batch)%nat.
Proof.
  intros Hb. apply max_list_elem_of_le, list_elem_of_In, in_map_iff.
  exists b. auto.
Qed.

(** What the collator returns, step by step. *)
Lemma collate_inv (self : MyCollator) (batch : list (Tensor * list Z))
    src trg trg_y pos_mask pad_mask :
  collate Tensor SrcBatch F f0 f1 neg_inf pad_sequence_src self batch
  = Ok (src, trg, trg_y, pos_mask, pad_mask) ->
  exists p,
    let L := batch_len batch in
    let V := vocab_len (vocabulary self) in
    let labels := List.map (fun b : Tensor * list Z => padded L p b.2) batch in
    batch <> []
    /\ pad_sequence_src (List.map fst batch) = Ok src
    /\ pad_id self = Ok p
    /\ forallb (forallb (fun t => (0 <=? t) && (t <? Z.of_nat V))) labels
       = true
    /\ trg = List.map (fun r => py_drop_last 1 (List.map (one_hot_row F f0 f1 V) r))
               labels
    /\ trg_y = List.map (@List.tl Z) labels
    /\ pos_mask
       = [List.map (fun i =>
            List.map (fun j => if Nat.leb j i then f0 else neg_inf)
              (seq 0 (L - 1)))
            (seq 0 (L - 1))]
    /\ pad_mask = List.map (List.map (fun t => t =? p)) trg_y.
Proof.
  intros H. unfold collate in H.
  destruct (pad_sequence_src _) as [s |] eqn:Es;
    [rewrite bind_Ok in H | discriminate H].
  destruct (pad_id self) as [p |] eqn:Ep;
    [rewrite bind_Ok in H | discriminate H].
  destruct (pad_sequence_labels _ p) as [labels |] eqn:El;
    [rewrite bind_Ok in H | discriminate H].
  destruct (one_hot _ _ _ _ labels) as [oh |] eqn:Eo;
    [rewrite bind_Ok in H | discriminate H].
  unfold masks in H. rewrite Ep, !bind_Ok in H. cbn [fst snd] in H.
  injection H as <- <- <- <- <-.
  apply pad_sequence_labels_inv in El as [Hne ->].
  assert (Hlab : List.map
                   (padded (max_list (List.map (fun s => length s)
                                        (List.map snd batch))) p)
                   (List.map snd batch)
                 = List.map (fun b : Tensor * list Z =>
                               padded (batch_len batch) p b.2) batch).
  { rewrite !List.map_map. reflexivity. }
  rewrite Hlab in *. clear Hlab.
  unfold one_hot in Eo.
  destruct (forallb _ _) eqn:Hrange; [| discriminate Eo].
  injection Eo as <-.
  exists p. cbn zeta.
  split; [intros ->; apply Hne; reflexivity |].
  split; [reflexivity |]. split; [reflexivity |].
  split; [exact Hrange |].
  split; [rewrite (List.map_map (List.map _) (py_drop_last 1)); reflexivity |].
  split; [reflexivity |].
  split; [| reflexivity].
  assert (Hsize : size1 (List.map (@List.tl Z)
                           (List.map (fun b : Tensor * list Z =>
                                        padded (batch_len batch) p b.2) batch))
                  = (batch_len batch - 1)%nat).
  { destruct batch as [| b0 batch']; [contradiction Hne; reflexivity |].
    cbn [List.map size1]. rewrite length_tl, length_padded; [reflexivity |].
    apply batch_len_row. left. reflexivity. }
  rewrite Hsize. reflexivity.
Qed.

(** Shapes: with [L] the longest label sequence of the batch and [V] the
    vocabulary size, the collator returns [trg] of shape [B x (L-1) x V],
    [trg_y] and [pad_mask] of shape [B x (L-1)] and [pos_mask] of shape
    [1 x (L-1) x (L-1)], for a batch of [B >= 1] examples. *)
Theorem collate_shapes (self : MyCollator) (batch : list (Tensor * list Z))
    src trg trg_y pos_mask pad_mask :
  collate Tensor SrcBatch F f0 f1 neg_inf pad_sequence_src self batch
  = Ok (src, trg, trg_y, pos_mask, pad_mask) ->
  let L := batch_len batch in
  let V := vocab_len (vocabulary self) in
  (1 <= length batch)%nat
  /\ length trg = length batch
  /\ Forall (fun m => length m = (L - 1)%nat
                      /\ Forall (fun r => length r = V) m) trg
  /\ length trg_y = length batch
  /\ Forall (fun r => length r = (L - 1)%nat) trg_y
  /\ length pad_mask = length batch
  /\ Forall (fun r => length r = (L - 1)%nat) pad_mask
  /\ exists M, pos_mask = [M]
               /\ length M = (L - 1)%nat
               /\ Forall (fun r => length r = (L - 1)%nat) M.
Proof.
  intros H L V.
  destruct (collate_inv _ _ _ _ _ _ _ H)
    as (p & Hne & _ & _ & _ & -> & -> & -> & ->).
  fold L V.
  assert (Hrow : forall b, In b batch -> length (padded L p b.2) = L).
  { intros b Hb. apply length_padded, batch_len_row, Hb. }
  split; [destruct batch; [contradiction | simpl; lia] |].
  split; [rewrite !length_map; reflexivity |].
  split.
  { apply Forall_forall. intros m Hm.
    apply list_elem_of_In, in_map_iff in Hm as (r & <- & Hr).
    apply in_map_iff in Hr as (b & <- & Hb).
    split.
    - rewrite length_py_drop_last, length_map, (Hrow b Hb). reflexivity.
    - apply Forall_forall. intros row Hrow'.
      unfold py_drop_last in Hrow'.
      apply elem_of_take in Hrow' as (i & Hi & _).
      apply list_elem_of_lookup_2, list_elem_of_In, in_map_iff in Hi
        as (t & <- & _).
      unfold one_hot_row. rewrite length_map, length_seq. reflexivity. }
  split; [rewrite !length_map; reflexivity |].
  split.
  { apply Forall_forall. intros r Hr.
    apply list_elem_of_In, in_map_iff in Hr as (r' & <- & Hr').
    apply in_map_iff in Hr' as (b & <- & Hb).
    rewrite length_tl, (Hrow b Hb). reflexivity. }
  split; [rewrite !length_map; reflexivity |].
  split.
  { apply Forall_forall. intros r Hr.
    apply list_elem_of_In, in_map_iff in Hr as (r' & <- & Hr').
    apply in_map_iff in Hr' as (r'' & <- & Hr'').
    apply in_map_iff in Hr'' as (b & <- & Hb).
    rewrite length_map, length_tl, (Hrow b Hb). reflexivity. }
  eexists. split; [reflexivity |].
  split; [rewrite length_map, length_seq; reflexivity |].
  apply Forall_forall. intros r Hr.
  apply list_elem_of_In, in_map_iff in Hr as (i & <- & _).
  rewrite length_map, length_seq. reflexivity.
Qed.

(** The causal mask: entry [(i, j)] of its single matrix is [0.] when
    [j <= i] and [-inf] when [j > i]. *)
Theorem collate_causal_mask (self : MyCollator)
    (batch : list (Tensor * list Z)) src trg trg_y pos_mask pad_mask
    (i j : nat) :
  collate Tensor SrcBatch F f0 f1 neg_inf pad_sequence_src self batch
  = Ok (src, trg, trg_y, pos_mask, pad_mask) ->
  (i < batch_len batch - 1)%nat -> (j < batch_len batch - 1)%nat ->
  exists M row,
    pos_mask = [M] /\ M !! i = Some row
    /\ row !! j = Some (if decide (j <= i)%nat then f0 else neg_inf).
Proof.
  intros H Hi Hj.
  destruct (collate_inv _ _ _ _ _ _ _ H)
    as (p & _ & _ & _ & _ & _ & _ & -> & _).
  eexists _, _. split; [reflexivity |].
  rewrite !lookup_map, !lookup_seq_lt by lia. cbn [fmap option_fmap option_map].
  split; [reflexivity |].
  rewrite lookup_map, lookup_seq_lt by lia. cbn.
  destruct (Nat.leb_spec j i), (decide (j <= i)%nat); try lia; reflexivity.
Qed.

(** The teacher-forcing shift: at a position [k] with a label token after
    it, row [b] of [trg_y] holds the label token at [k + 1], and row [b] of
    [trg] holds the one-hot row of the label token at [k]: [1.] at that
    token's id, which is within the vocabulary, and [0.] elsewhere. *)
Theorem collate_shift (self : MyCollator) (batch : list (Tensor * list Z))
    src trg trg_y pos_mask pad_mask (b k : nat) (x : Tensor) (lab : list Z) :
  collate Tensor SrcBatch F f0 f1 neg_inf pad_sequence_src self batch
  = Ok (src, trg, trg_y, pos_mask, pad_mask) ->
  batch !! b = Some (x, lab) ->
  (S k < length lab)%nat ->
  exists t t' ys row,
    lab !! k = Some t /\ lab !! S k = Some t'
    /\ trg_y !! b = Some ys /\ ys !! k = Some t'
    /\ (exists m, trg !! b = Some m /\ m !! k = Some row)
    /\ 0 <= t < Z.of_nat (vocab_len (vocabulary self))
    /\ forall v, (v < vocab_len (vocabulary self))%nat ->
                 row !! v = Some (if decide (Z.of_nat v = t) then f1 else f0).
Proof.
  intros H Hb Hk.
  destruct (collate_inv _ _ _ _ _ _ _ H)
    as (p & _ & _ & _ & Hrange & -> & -> & _ & _).
  destruct (lookup_lt_is_Some_2 lab k ltac:(lia)) as [t Ht].
  destruct (lookup_lt_is_Some_2 lab (S k) ltac:(lia)) as [t' Ht'].
  assert (HL : (length lab <= batch_len batch)%nat).
  { apply (batch_len_row batch (x, lab)).
    apply list_elem_of_In, list_elem_of_lookup. eauto. }
  exists t, t', (List.tl (padded (batch_len batch) p lab)),
         (one_hot_row F f0 f1 (vocab_len (vocabulary self)) t).
  split; [exact Ht |]. split; [exact Ht' |].
  split; [rewrite !lookup_map, Hb; reflexivity |].
  split; [rewrite lookup_tl, lookup_padded_label by lia; exact Ht' |].
  split.
  { eexists. split; [rewrite !lookup_map, Hb; reflexivity |].
    cbn [snd].
    rewrite lookup_py_drop_last
      by (rewrite length_map, length_padded by exact HL; lia).
    rewrite lookup_map, lookup_padded_label by lia. rewrite Ht. reflexivity. }
  split.
  { rewrite forallb_forall in Hrange.
    specialize (Hrange (padded (batch_len batch) p lab)).
    rewrite forallb_forall in Hrange.
    assert (Hin : In t (padded (batch_len batch) p lab)).
    { apply list_elem_of_In, list_elem_of_lookup. exists k.
      rewrite lookup_padded_label by lia. exact Ht. }
    specialize (Hrange ltac:(apply in_map_iff; exists (x, lab); split;
                              [reflexivity |];
                              apply list_elem_of_In, list_elem_of_lookup; eauto)
                         t Hin).
    apply andb_true_iff in Hrange as [H0 H1].
    apply Z.leb_le in H0. apply Z.ltb_lt in H1. lia. }
  intros v Hv. unfold one_hot_row.
  rewrite lookup_map, lookup_seq_lt by lia. cbn.
  destruct (Z.eqb_spec (Z.of_nat v) t), (decide (Z.of_nat v = t));
    try contradiction; reflexivity.
Qed.

(** Padding positions are always masked: past the end of a label sequence
    shorter than the longest, [trg_y] holds the pad id and [pad_mask] is
    true. *)
Theorem collate_padding_masked (self : MyCollator)
    (batch : list (Tensor * list Z)) src trg trg_y pos_mask pad_mask
    (b k : nat) (x : Tensor) (lab : list Z) :
  collate Tensor SrcBatch F f0 f1 neg_inf pad_sequence_src self batch
  = Ok (src, trg, trg_y, pos_mask, pad_mask) ->
  batch !! b = Some (x, lab) ->
  (length lab <= S k < batch_len batch)%nat ->
  exists p ys ms,
    pad_id self = Ok p
    /\ trg_y !! b = Some ys /\ ys !! k = Some p
    /\ pad_mask !! b = Some ms /\ ms !! k = Some true.
Proof.
  intros H Hb Hk.
  destruct (collate_inv _ _ _ _ _ _ _ H)
    as (p & _ & _ & Hp & _ & _ & -> & _ & ->).
  exists p. eexists _, _.
  split; [exact Hp |].
  split; [rewrite !lookup_map, Hb; reflexivity |].
  split; [cbn [snd]; rewrite lookup_tl; apply lookup_padded_padding; lia |].
  split; [rewrite !lookup_map, Hb; reflexivity |].
  cbn [snd fmap option_fmap option_map].
  rewrite lookup_map, lookup_tl, lookup_padded_padding by lia.
  cbn. rewrite Z.eqb_refl. reflexivity.
Qed.

(** The collator returns whenever the signals can be padded, the pad token
    is a string, the batch is not empty, and every label id and the pad id
    lie within the vocabulary. *)
Theorem collate_returns (self : MyCollator) (batch : list (Tensor * list Z))
    (src : SrcBatch) (p : Z) :
  pad_sequence_src (List.map fst batch) = Ok src ->
  pad_id self = Ok p ->
  batch <> [] ->
  0 <= p < Z.of_nat (vocab_len (vocabulary self)) ->
  Forall (fun b : Tensor * list Z =>
            Forall (fun t => 0 <= t < Z.of_nat (vocab_len (vocabulary self)))
              b.2) batch ->
  exists trg trg_y pos_mask pad_mask,
    collate Tensor SrcBatch F f0 f1 neg_inf pad_sequence_src self batch
    = Ok (src, trg, trg_y, pos_mask, pad_mask).
Proof.
  intros Hsrc Hp Hne Hpr Hlab.
  unfold collate. rewrite Hsrc, bind_Ok, Hp, bind_Ok.
  destruct (pad_sequence_labels (List.map snd batch) p) as [labels |] eqn:El.
  2: { destruct batch; [contradiction | discriminate El]. }
  rewrite bind_Ok.
  apply pad_sequence_labels_inv in El as [_ ->].
  unfold one_hot.
  replace (forallb _ _) with true.
  - rewrite bind_Ok. unfold masks. rewrite Hp, !bind_Ok.
    eexists _, _, _, _. reflexivity.
  - symmetry. apply forallb_forall. intros r Hr.
    apply in_map_iff in Hr as (s & <- & Hs).
    apply in_map_iff in Hs as (b & <- & Hb).
    apply forallb_forall. intros t Ht.
    unfold padded in Ht. apply in_app_or in Ht as [Ht | Ht].
    + rewrite Forall_forall in Hlab.
      specialize (Hlab b ltac:(apply list_elem_of_In; exact Hb)).
      rewrite Forall_forall in Hlab.
      specialize (Hlab t ltac:(apply list_elem_of_In; exact Ht)).
      apply andb_true_intro. split; [apply Z.leb_le | apply Z.ltb_lt]; lia.
    + apply list_elem_of_In, elem_of_replicate in Ht as [-> _].
      apply andb_true_intro. split; [apply Z.leb_le | apply Z.ltb_lt]; lia.
Qed.

(** The collator never returns on an empty batch, and it raises
    [RuntimeError] on a batch holding a label id outside the vocabulary
    (when the signals can be padded and the pad token is a string). *)
Theorem collate_raises (self : MyCollator) :
  (forall r,
      collate Tensor SrcBatch F f0 f1 neg_inf pad_sequence_src self [] <> Ok r)
  /\ (forall (batch : list (Tensor * list Z)) (src : SrcBatch) (p : Z)
             (b : Tensor * list Z) (t : Z),
         pad_sequence_src (List.map fst batch) = Ok src ->
         pad_id self = Ok p ->
         In b batch -> In t b.2 ->
         ~ 0 <= t < Z.of_nat (vocab_len (vocabulary self)) ->
         collate Tensor SrcBatch F f0 f1 neg_inf pad_sequence_src self batch
         = Raise RuntimeError).
Proof.
  split.
  - intros r H. unfold collate in H. cbn [List.map] in H.
    destruct (pad_sequence_src []) as [s |]; [| discriminate H].
    rewrite bind_Ok in H.
    destruct (pad_id self) as [p |]; discriminate H.
  - intros batch src p b t Hsrc Hp Hb Ht Hout.
    unfold collate. rewrite Hsrc, bind_Ok, Hp, bind_Ok.
    destruct (pad_sequence_labels (List.map snd batch) p) as [labels |] eqn:El;
      [| destruct batch; [destruct Hb | discriminate El]].
    rewrite bind_Ok.
    apply pad_sequence_labels_inv in El as [_ ->].
    unfold one_hot.
    destruct (forallb _ _) eqn:Hrange; [| reflexivity].
    exfalso. apply Hout.
    rewrite forallb_forall in Hrange.
    specialize (Hrange _ (in_map _ _ _ (in_map snd _ _ Hb))).
    rewrite forallb_forall in Hrange.
    specialize (Hrange t ltac:(unfold padded; apply in_or_app; left; exact Ht)).
    apply andb_true_iff in Hrange as [H0 H1].
    apply Z.leb_le in H0. apply Z.ltb_lt in H1. lia.
Qed.
End CollatorFacts.

Lemma collate_shapes_witness :
  length toy_trg = length toy_batch
  /\ Forall (fun r => length r = (batch_len toy_batch - 1)%nat) toy_trg_y
  /\ exists M, toy_pos_mask = [M] /\ length M = (batch_len toy_batch - 1)%nat.
Proof.
  pose proof (collate_shapes toy_signal (list toy_signal) fval F0 F1 FNegInf
                toy_pad_src toy_collator toy_batch
                toy_src toy_trg toy_trg_y toy_pos_mask toy_pad_mask
                ltac:(vm_compute; reflexivity))
    as (_ & H1 & _ & _ & H2 & _ & _ & M & H3 & H4 & _).
  split; [exact H1 |]. split; [exact H2 |].
  exists M. split; [exact H3 | exact H4].
Defined.

Lemma collate_causal_mask_witness :
  exists M row,
    toy_pos_mask = [M] /\ M !! 1%nat = Some row
    /\ row !! 2%nat = Some (if decide (2 <= 1)%nat then F0 else FNegInf).
Proof.
  apply (collate_causal_mask toy_signal (list toy_signal) fval F0 F1 FNegInf
           toy_pad_src toy_collator toy_batch
           toy_src toy_trg toy_trg_y toy_pos_mask toy_pad_mask 1 2).
  - vm_compute. reflexivity.
  - vm_compute. lia.
  - vm_compute. lia.
Defined.

Lemma collate_shift_witness :
  exists t t' ys row,
    [2; 5; 6; 7; 3] !! 2%nat = Some t /\ [2; 5; 6; 7; 3] !! 3%nat = Some t'
    /\ toy_trg_y !! 1%nat = Some ys /\ ys !! 2%nat = Some t'
    /\ (exists m, toy_trg !! 1%nat = Some m /\ m !! 2%nat = Some row)
    /\ 0 <= t < Z.of_nat (vocab_len (vocabulary toy_collator))
    /\ forall v, (v < vocab_len (vocabulary toy_collator))%nat ->
                 row !! v = Some (if decide (Z.of_nat v = t) then F1 else F0).
Proof.
  apply (collate_shift toy_signal (list toy_signal) fval F0 F1 FNegInf
           toy_pad_src toy_collator toy_batch
           toy_src toy_trg toy_trg_y toy_pos_mask toy_pad_mask
           1 2 [[3; 4]; [5; 6]] [2; 5; 6; 7; 3]).
  - vm_compute. reflexivity.
  - reflexivity.
  - simpl. lia.
Defined.

Lemma collate_padding_masked_witness :
  exists p ys ms,
    pad_id toy_collator = Ok p
    /\ toy_trg_y !! 0%nat = Some ys /\ ys !! 2%nat = Some p
    /\ toy_pad_mask !! 0%nat = Some ms /\ ms !! 2%nat = Some true.
Proof.
  apply (collate_padding_masked toy_signal (list toy_signal) fval
           F0 F1 FNegInf toy_pad_src toy_collator toy_batch
           toy_src toy_trg toy_trg_y toy_pos_mask toy_pad_mask
           0 2 [[1; 2]] [2; 5; 3]).
  - vm_compute. reflexivity.
  - reflexivity.
  - vm_compute. lia.
Defined.

Lemma collate_returns_witness :
  exists trg trg_y pos_mask pad_mask,
    toy_collate toy_batch = Ok (toy_src, trg, trg_y, pos_mask, pad_mask).
Proof.
  apply (collate_returns toy_signal (list toy_signal) fval F0 F1 FNegInf
           toy_pad_src toy_collator toy_batch toy_src 1).
  - reflexivity.
  - reflexivity.
  - discriminate.
  - simpl. lia.
  - unfold toy_batch. simpl.
    repeat (constructor; [repeat (constructor; [lia |]); constructor |]).
    constructor.
Defined.

Lemma collate_raises_witness :
  toy_collate [([[1; 2]], [2; 99; 3])] = Raise RuntimeError.
Proof.
  apply (proj2 (collate_raises toy_signal (list toy_signal) fval F0 F1 FNegInf
                  toy_pad_src toy_collator)
           [([[1; 2]], [2; 99; 3])] [[[1; 2]]] 1 ([[1; 2]], [2; 99; 3]) 99).
  - reflexivity.
  - reflexivity.
  - left. reflexivity.
  - right. left. reflexivity.
  - simpl. lia.
Defined.

(** ** Boundary tokens: mutation in place *)

(** The list behind the reference is changed in place to the start id, the
    old tokens, then the stop id (two tokens longer); the reference
    returned is the one given, so every holder of it sees the change; no
    other list of the store is touched. *)
Theorem add_begin_end_tokens_in_place (h : gmap nat (list Z))
    (word_pair : nat) (v : Vocabulary) (start_tok stop_tok : string)
    (l : list Z) :
  h !! word_pair = Some l ->
  let r := add_begin_end_tokens h word_pair v start_tok stop_tok in
  let new := PieceToId v start_tok :: l ++ [PieceToId v stop_tok] in
  r.2 = word_pair
  /\ r.1 !! word_pair = Some new
  /\ length new = (length l + 2)%nat
  /\ forall other, other <> word_pair -> r.1 !! other = h !! other.
Proof.
  intros Hl r new. unfold r, add_begin_end_tokens. cbn [fst snd].
  split; [reflexivity |]. split; [| split].
  - rewrite !lookup_alter_eq, Hl. reflexivity.
  - unfold new. cbn [length]. rewrite length_app. simpl. lia.
  - intros other Hne. rewrite !lookup_alter_ne by congruence. reflexivity.
Qed.

Lemma add_begin_end_tokens_in_place_witness :
  (add_begin_end_tokens toy_store 0 toy_vocabulary "<s>" "</s>").1 !! 0%nat
  = Some [2; 5; 6; 2]
  /\ (add_begin_end_tokens toy_store 0 toy_vocabulary "<s>" "</s>").1 !! 1%nat
     = Some [9].
Proof.
  pose proof (add_begin_end_tokens_in_place toy_store 0 toy_vocabulary
                "<s>" "</s>" [5; 6] ltac:(reflexivity))
    as (_ & Hnew & _ & Hframe).
  split; [exact Hnew |].
  rewrite (Hframe 1%nat ltac:(lia)). reflexivity.
Defined.

(** ** read_file: trailing whitespace *)

Lemma list_ascii_rev_onto (s acc : string) :
  list_ascii_of_string (str_rev_onto s acc)
  = rev_append (list_ascii_of_string s) (list_ascii_of_string acc).
Proof.
  revert acc. induction s as [| c s IH]; intros acc; [reflexivity |].
  simpl. apply IH.
Qed.

Lemma list_ascii_rev (s : string) :
  list_ascii_of_string (str_rev s) = rev (list_ascii_of_string s).
Proof.
  unfold str_rev. rewrite list_ascii_rev_onto, rev_append_rev.
  simpl. apply app_nil_r.
Qed.

Lemma list_ascii_app (a b : string) :
  list_ascii_of_string (a +:+ b)
  = list_ascii_of_string a ++ list_ascii_of_string b.
Proof. induction a as [| c a IH]; simpl; [reflexivity | rewrite IH; reflexivity]. Qed.

Lemma str_lstrip_split (s : string) :
  exists w,
    list_ascii_of_string s = w ++ list_ascii_of_string (str_lstrip s)
    /\ Forall (fun c => char_isspace c = true) w
    /\ forall c, head (list_ascii_of_string (str_lstrip s)) = Some c ->
                 char_isspace c = false.
Proof.
  induction s as [| c s (w & Hw & Hsp & Hhd)].
  - exists []. simpl. split; [reflexivity |]. split; [constructor | discriminate].
  - simpl. destruct (char_isspace c) eqn:Hc.
    + exists (c :: w). simpl. rewrite Hw.
      split; [reflexivity |]. split; [constructor; assumption | exact Hhd].
    + exists []. simpl. split; [reflexivity |]. split; [constructor |].
      intros c' [= <-]. exact Hc.
Qed.

Lemma last_rev_head {A} (l : list A) : last (rev l) = head l.
Proof.
  destruct l as [| a l]; [reflexivity |].
  simpl. rewrite last_snoc. reflexivity.
Qed.

Lemma str_rstrip_split (s : string) :
  exists ws : string,
    s = str_rstrip s +:+ ws
    /\ Forall (fun c => char_isspace c = true) (list_ascii_of_string ws)
    /\ forall c, last (list_ascii_of_string (str_rstrip s)) = Some c ->
                 char_isspace c = false.
Proof.
  destruct (str_lstrip_split (str_rev s)) as (w & Hw & Hsp & Hhd).
  exists (string_of_list_ascii (rev w)).
  unfold str_rstrip.
  split; [| split].
  - rewrite <- (string_of_list_ascii_of_string s) at 1.
    rewrite <- (string_of_list_ascii_of_string (_ +:+ _)).
    f_equal.
    rewrite list_ascii_app, list_ascii_rev, list_ascii_of_string_of_list_ascii.
    rewrite <- rev_app_distr, <- Hw, list_ascii_rev, rev_involutive.
    reflexivity.
  - rewrite list_ascii_of_string_of_list_ascii.
    apply Forall_forall. intros c Hc.
    apply list_elem_of_In, in_rev, list_elem_of_In in Hc.
    rewrite Forall_forall in Hsp. apply Hsp, Hc.
  - intros c. rewrite list_ascii_rev, last_rev_head. apply Hhd.
Qed.

(** [read_file] returns one line per line of the file; for an ASCII line
    it is the file's line without its trailing whitespace: the line is the
    returned one followed by whitespace only, and the returned one does not
    end in whitespace. *)
Theorem read_file_lines (lines : list string) :
  length (read_file lines) = length lines
  /\ forall (i : nat) (line : string),
       lines !! i = Some line ->
       str_is_ascii line = true ->
       exists out ws : string,
         read_file lines !! i = Some out
         /\ line = out +:+ ws
         /\ Forall (fun c => char_isspace c = true) (list_ascii_of_string ws)
         /\ forall c, last (list_ascii_of_string out) = Some c ->
                      char_isspace c = false.
Proof.
  unfold read_file. split; [apply length_map |].
  intros i line Hline _.
  destruct (str_rstrip_split line) as (ws & Heq & Hws & Hlast).
  exists (str_rstrip line), ws.
  split; [rewrite lookup_map, Hline; reflexivity |].
  split; [exact Heq |]. split; [exact Hws | exact Hlast].
Qed.

Lemma read_file_lines_witness :
  exists out ws : string,
    read_file [sample_line] !! 0%nat = Some out
    /\ sample_line = out +:+ ws
    /\ Forall (fun c => char_isspace c = true) (list_ascii_of_string ws)
    /\ forall c, last (list_ascii_of_string out) = Some c ->
                 char_isspace c = false.
Proof.
  apply (proj2 (read_file_lines [sample_line]) 0%nat sample_line);
    reflexivity.
Defined.
